(** * WebSG scripting host: resource access control and scene-graph bridge

    A shallow embedding of [src/engine/scripting/websg.ts]: the capability
    check [getScriptResource], the filtered sibling-chain traversals, the
    node accessors and the resource constructors exposed to guest scripts.

    Conventions of the embedding.
    - A JavaScript number that crosses the ABI is a [Z].
    - A reference to a resource object is the [eid] of that object, i.e. the
      key under which it is stored in [resourceMap]; [x.eid] is therefore the
      reference itself.
    - A 32-bit float is carried as its bit pattern (a [Z] below [2^32]); the
      host only copies floats, it never computes with them here.
    - [undefined] is [None]. *)

From Stdlib Require Import ZArith Lia.
From stdpp Require Import base option list strings gmap.

Local Open Scope Z_scope.

(** ** Resource model *)

Module ResourceType.
Inductive t :=
| Node | Scene | Mesh | MeshPrimitive | Accessor | Buffer | BufferView
| Material | Texture | Light | Collider | Interactable | Camera | Skin
| UICanvas | UIElement | UIButton | UIText.

#[global] Instance eq_dec : EqDecision t.
Proof. solve_decision. Defined.
End ResourceType.

(** The fields of a [RemoteNode] that the modelled calls read or write. *)
Record RemoteNode := mkNode {
  parent : option Z;
  parentScene : option Z;
  firstChild : option Z;
  nextSibling : option Z;
  visible : bool;
}.

Record RemoteScene := mkScene {
  firstNode : option Z;
}.

Record MeshPrimitiveProps := mkPrimitiveProps {
  attributes : gmap Z Z;
  indices : option Z;
  material : option Z;
  mode : Z;
}.

Record RemoteMesh := mkMesh {
  mesh_name : list Z;
  primitives : list Z;
}.

Module MaterialType.
Inductive t := Standard | Unlit.
End MaterialType.

Record RemoteMaterial := mkMaterial {
  material_type : MaterialType.t;
  baseColorFactor : list Z;
  baseColorTexture : option Z;
  metallicFactor : Z;
  roughnessFactor : Z;
  metallicRoughnessTexture : option Z;
  normalTexture : option Z;
  normalScale : Z;
  occlusionTexture : option Z;
  occlusionTextureStrength : Z;
  emissiveTexture : option Z;
  emissiveFactor : list Z;
  alphaMode : Z;
  alphaCutoff : Z;
  doubleSided : bool;
  material_name : list Z;
  (* normalTextureOffset, normalTextureRotation, normalTextureScale *)
  normalTextureTransform : option (list Z * Z * list Z);
}.

Record RemoteCollider := mkCollider {
  collider_type : Z;
  isTrigger : bool;
  collider_size : list Z;
  radius : Z;
  collider_height : Z;
  collider_mesh : option Z;
}.

Record RemoteUICanvas := mkUICanvas {
  canvas_size : list Z;
  canvas_width : Z;
  canvas_height : Z;
}.

Record RemoteUIText := mkUIText {
  color : list Z;
}.

(** A resource is the object stored in the registry; its constructor is its
    [resourceType] tag. *)
Inductive Resource :=
| RNode (n : RemoteNode)
| RScene (s : RemoteScene)
| RMesh (m : RemoteMesh)
| RMeshPrimitive (p : MeshPrimitiveProps)
| RMaterial (m : RemoteMaterial)
| RLight (type : Z)
| RCollider (c : RemoteCollider)
| RUICanvas (c : RemoteUICanvas)
| RUIText (t : RemoteUIText)
| RAccessor | RBuffer | RBufferView | RTexture | RInteractable
| RCamera | RSkin | RUIElement | RUIButton.

Definition resourceType (r : Resource) : ResourceType.t :=
  match r with
  | RNode _ => ResourceType.Node
  | RScene _ => ResourceType.Scene
  | RMesh _ => ResourceType.Mesh
  | RMeshPrimitive _ => ResourceType.MeshPrimitive
  | RMaterial _ => ResourceType.Material
  | RLight _ => ResourceType.Light
  | RCollider _ => ResourceType.Collider
  | RUICanvas _ => ResourceType.UICanvas
  | RUIText _ => ResourceType.UIText
  | RAccessor => ResourceType.Accessor
  | RBuffer => ResourceType.Buffer
  | RBufferView => ResourceType.BufferView
  | RTexture => ResourceType.Texture
  | RInteractable => ResourceType.Interactable
  | RCamera => ResourceType.Camera
  | RSkin => ResourceType.Skin
  | RUIElement => ResourceType.UIElement
  | RUIButton => ResourceType.UIButton
  end.

(** [wasmCtx.resourceManager]: the capability set of the calling script, the
    registry, and the id the next constructed resource receives. *)
Record ResourceManager := mkManager {
  resourceIds : gset Z;
  resourceMap : gmap Z Resource;
  nextEid : Z;
}.

(** The cursor view over guest memory: a byte buffer and a read position. *)
Record CursorView := mkCursorView {
  buffer : list Z;
  cursor : Z;
}.

Record WASMModuleContext := mkCtx {
  resourceManager : ResourceManager;
  cursorView : CursorView;
}.

Definition withManager (wasmCtx : WASMModuleContext) (rm : ResourceManager) :=
  mkCtx rm (cursorView wasmCtx).

Definition withCursorView (wasmCtx : WASMModuleContext) (v : CursorView) :=
  mkCtx (resourceManager wasmCtx) v.

Definition withResourceMap (wasmCtx : WASMModuleContext) (m : gmap Z Resource) :=
  withManager wasmCtx
    (mkManager (resourceIds (resourceManager wasmCtx)) m (nextEid (resourceManager wasmCtx))).

(** ** The capability check *)

(** The three [console.error] branches of [getScriptResource]. *)
Inductive AccessError :=
| NotAuthorized   (* "missing or unpermitted use of" *)
| NotFound        (* "missing" *)
| TypeMismatch.   (* "id does not point to a" *)

(** [getScriptResource] with the branch it took made visible: [inl e] is a
    [console.error] followed by [return undefined]. *)
Definition checkAccess (wasmCtx : WASMModuleContext)
    (expected : ResourceType.t) (resourceId : Z) : AccessError + Resource :=
  let rm := resourceManager wasmCtx in
  if decide (resourceId ∈ resourceIds rm) then
    match resourceMap rm !! resourceId with
    | None => inl NotFound
    | Some resource =>
        if decide (resourceType resource = expected) then inr resource
        else inl TypeMismatch
    end
  else inl NotAuthorized.

(** What the caller of [getScriptResource] receives. *)
Definition getScriptResource (wasmCtx : WASMModuleContext)
    (expected : ResourceType.t) (resourceId : Z) : option Resource :=
  match checkAccess wasmCtx expected resourceId with
  | inl _ => None
  | inr resource => Some resource
  end.

Definition asNode (r : Resource) : option RemoteNode :=
  match r with RNode n => Some n | _ => None end.
Definition asScene (r : Resource) : option RemoteScene :=
  match r with RScene s => Some s | _ => None end.
Definition asUIText (r : Resource) : option RemoteUIText :=
  match r with RUIText t => Some t | _ => None end.

(** [getScriptResource(wasmCtx, RemoteNode, id)] and its siblings. *)
Definition getScriptNode (wasmCtx : WASMModuleContext) (id : Z) : option RemoteNode :=
  getScriptResource wasmCtx ResourceType.Node id ≫= asNode.
Definition getScriptScene (wasmCtx : WASMModuleContext) (id : Z) : option RemoteScene :=
  getScriptResource wasmCtx ResourceType.Scene id ≫= asScene.
Definition getScriptUIText (wasmCtx : WASMModuleContext) (id : Z) : option RemoteUIText :=
  getScriptResource wasmCtx ResourceType.UIText id ≫= asUIText.

(** ** Filtered traversal of the sibling chain *)

(** The TypeScript union [RemoteNode | RemoteScene]. *)
Inductive NodeOrScene :=
| IsNode (n : RemoteNode)
| IsScene (s : RemoteScene).

(** [node.resourceType === ResourceType.Node ? node.firstChild : node.firstNode] *)
Definition firstOf (node : NodeOrScene) : option Z :=
  match node with
  | IsNode n => firstChild n
  | IsScene s => firstNode s
  end.

(** The object a cursor refers to; siblings are [RemoteNode]s. *)
Definition deref (m : gmap Z Resource) (c : Z) : option RemoteNode :=
  m !! c ≫= asNode.

(** The [while (cursor)] loop of [getScriptChildCount]. [None] means the
    loop is still running when the fuel is spent (or that the cursor names
    no node of the registry, which an object reference cannot do). *)
Fixpoint getScriptChildCount_loop (fuel : nat) (ids : gset Z)
    (m : gmap Z Resource) (cur : option Z) (count : Z) : option Z :=
  match cur with
  | None => Some count
  | Some c =>
      match fuel with
      | O => None
      | S fuel' =>
          n ← deref m c;
          getScriptChildCount_loop fuel' ids m (nextSibling n)
            (if decide (c ∈ ids) then count + 1 else count)
      end
  end.

Definition getScriptChildCount (fuel : nat) (wasmCtx : WASMModuleContext)
    (node : NodeOrScene) : option Z :=
  let rm := resourceManager wasmCtx in
  getScriptChildCount_loop fuel (resourceIds rm) (resourceMap rm) (firstOf node) 0.

(** The loop of [scriptGetChildAt]: it leaves with the cursor and the
    counter it stopped at. *)
Fixpoint scriptGetChildAt_loop (fuel : nat) (ids : gset Z)
    (m : gmap Z Resource) (index : Z) (cur : option Z) (i : Z)
    : option (option Z * Z) :=
  match cur with
  | None => Some (None, i)
  | Some c =>
      if i <? index then
        match fuel with
        | O => None
        | S fuel' =>
            n ← deref m c;
            scriptGetChildAt_loop fuel' ids m index (nextSibling n)
              (if decide (c ∈ ids) then i + 1 else i)
        end
      else Some (Some c, i)
  end.

Definition scriptGetChildAt (fuel : nat) (wasmCtx : WASMModuleContext)
    (parent : NodeOrScene) (index : Z) : option Z :=
  let rm := resourceManager wasmCtx in
  '(cur, i) ← scriptGetChildAt_loop fuel (resourceIds rm) (resourceMap rm)
                index (firstOf parent) 0;
  match cur with
  | Some c =>
      if decide (i = index) then
        if decide (c ∈ resourceIds rm) then Some c else Some 0
      else Some 0
  | None => Some 0
  end.

(** ** Guest memory and the cursor view *)

Definition byteAt (buf : list Z) (off : Z) : option Z :=
  if decide (0 ≤ off) then buf !! Z.to_nat off else None.

(** [DataView.getUint32(off, littleEndian = true)]; [None] is the
    [RangeError] of a read that leaves the buffer. *)
Definition getUint32 (buf : list Z) (off : Z) : option Z :=
  b0 ← byteAt buf off;
  b1 ← byteAt buf (off + 1);
  b2 ← byteAt buf (off + 2);
  b3 ← byteAt buf (off + 3);
  Some (b0 + 256 * b1 + 65536 * b2 + 16777216 * b3).

Definition le32 (v : Z) : list Z :=
  [v mod 256; (v / 256) mod 256; (v / 65536) mod 256; (v / 16777216) mod 256].

(** Modelled from the spec: guest memory is the raw buffer underlying the
    cursor view, and [U32Heap] is its [Uint32Array] view (WASMModuleContext
    is not among the sources). This is [U32Heap[nodeArrPtr / 4 + i] = v].
    The index is a JavaScript number: when [nodeArrPtr] is not a multiple
    of 4 it is not an integer and the store addresses no element; a store
    outside the array is dropped as well. The value is converted to an
    unsigned 32-bit integer. *)
Definition U32Heap_store (buf : list Z) (nodeArrPtr i v : Z) : list Z :=
  if decide (nodeArrPtr mod 4 = 0) then
    let off := 4 * (nodeArrPtr / 4 + i) in
    if decide (0 ≤ off ∧ off + 4 ≤ Z.of_nat (length buf)) then
      take (Z.to_nat off) buf ++ le32 (v mod 4294967296) ++ drop (Z.to_nat off + 4) buf
    else buf
  else buf.

(** The loop of [getScriptChildren]; the heap it writes is threaded along. *)
Fixpoint getScriptChildren_loop (fuel : nat) (ids : gset Z)
    (m : gmap Z Resource) (nodeArrPtr maxCount : Z)
    (cur : option Z) (i : Z) (heap : list Z) : option (Z * list Z) :=
  match cur with
  | None => Some (i, heap)
  | Some c =>
      if i <? maxCount then
        match fuel with
        | O => None
        | S fuel' =>
            n ← deref m c;
            if decide (c ∈ ids) then
              getScriptChildren_loop fuel' ids m nodeArrPtr maxCount
                (nextSibling n) (i + 1) (U32Heap_store heap nodeArrPtr i c)
            else
              getScriptChildren_loop fuel' ids m nodeArrPtr maxCount
                (nextSibling n) i heap
        end
      else Some (i, heap)
  end.

Definition withBuffer (wasmCtx : WASMModuleContext) (buf : list Z) :=
  withCursorView wasmCtx (mkCursorView buf (cursor (cursorView wasmCtx))).

Definition getScriptChildren (fuel : nat) (wasmCtx : WASMModuleContext)
    (node : NodeOrScene) (nodeArrPtr maxCount : Z)
    : option (Z * WASMModuleContext) :=
  let rm := resourceManager wasmCtx in
  '(i, heap) ← getScriptChildren_loop fuel (resourceIds rm) (resourceMap rm)
                 nodeArrPtr maxCount (firstOf node) 0 (buffer (cursorView wasmCtx));
  Some (i, withBuffer wasmCtx heap).

(** ** Scene and node queries of the ABI *)

Definition scene_get_node_count (fuel : nat) (wasmCtx : WASMModuleContext)
    (sceneId : Z) : option Z :=
  match getScriptScene wasmCtx sceneId with
  | None => Some (-1)
  | Some scene => getScriptChildCount fuel wasmCtx (IsScene scene)
  end.

Definition scene_get_nodes (fuel : nat) (wasmCtx : WASMModuleContext)
    (sceneId nodeArrPtr maxCount : Z) : option (Z * WASMModuleContext) :=
  match getScriptScene wasmCtx sceneId with
  | None => Some (-1, wasmCtx)
  | Some scene => getScriptChildren fuel wasmCtx (IsScene scene) nodeArrPtr maxCount
  end.

Definition scene_get_node (fuel : nat) (wasmCtx : WASMModuleContext)
    (sceneId index : Z) : option Z :=
  match getScriptScene wasmCtx sceneId with
  | None => Some 0
  | Some scene => scriptGetChildAt fuel wasmCtx (IsScene scene) index
  end.

Definition node_get_child_count (fuel : nat) (wasmCtx : WASMModuleContext)
    (nodeId : Z) : option Z :=
  match getScriptNode wasmCtx nodeId with
  | None => Some (-1)
  | Some node => getScriptChildCount fuel wasmCtx (IsNode node)
  end.

Definition node_get_children (fuel : nat) (wasmCtx : WASMModuleContext)
    (nodeId childArrPtr maxCount : Z) : option (Z * WASMModuleContext) :=
  match getScriptNode wasmCtx nodeId with
  | None => Some (-1, wasmCtx)
  | Some node => getScriptChildren fuel wasmCtx (IsNode node) childArrPtr maxCount
  end.

Definition node_get_child (fuel : nat) (wasmCtx : WASMModuleContext)
    (nodeId index : Z) : option Z :=
  match getScriptNode wasmCtx nodeId with
  | None => Some 0
  | Some node => scriptGetChildAt fuel wasmCtx (IsNode node) index
  end.

Definition node_get_parent (wasmCtx : WASMModuleContext) (nodeId : Z) : Z :=
  match getScriptNode wasmCtx nodeId with
  | None => 0
  | Some node =>
      match parent node with
      | None => 0
      | Some p =>
          if decide (p ∈ resourceIds (resourceManager wasmCtx)) then p else 0
      end
  end.

Definition node_get_parent_scene (wasmCtx : WASMModuleContext) (nodeId : Z) : Z :=
  match getScriptNode wasmCtx nodeId with
  | None => 0
  | Some node =>
      match parentScene node with
      | None => 0
      | Some p =>
          if decide (p ∈ resourceIds (resourceManager wasmCtx)) then p else 0
      end
  end.

(** ** Node accessors *)

Definition node_get_visible (wasmCtx : WASMModuleContext) (nodeId : Z) : Z :=
  match getScriptNode wasmCtx nodeId with
  | Some node => if visible node then 1 else 0
  | None => 0
  end.

Definition setVisible (n : RemoteNode) (v : bool) : RemoteNode :=
  mkNode (parent n) (parentScene n) (firstChild n) (nextSibling n) v.

(** [!!visible] for a number. *)
Definition truthy (v : Z) : bool := negb (v =? 0).

Definition node_set_visible (wasmCtx : WASMModuleContext) (nodeId visible : Z)
    : Z * WASMModuleContext :=
  match getScriptNode wasmCtx nodeId with
  | None => (-1, wasmCtx)
  | Some node =>
      (0, withResourceMap wasmCtx
            (<[nodeId := RNode (setVisible node (truthy visible))]>
               (resourceMap (resourceManager wasmCtx))))
  end.

(** ** Control flow of an ABI handler

    A handler body is a sequence of statements over the module context.
    A statement falls through to the next one, executes [return z], or
    throws. *)

Inductive Outcome (A : Type) :=
| Continue (a : A)
| Return (z : Z)
| Throw.
Arguments Continue {A} a.
Arguments Return {A} z.
Arguments Throw {A}.

Definition Script (A : Type) : Type :=
  WASMModuleContext → Outcome A * WASMModuleContext.

#[global] Instance script_ret : MRet Script :=
  λ A a wasmCtx, (Continue a, wasmCtx).

#[global] Instance script_bind : MBind Script :=
  λ A B k m wasmCtx,
    match m wasmCtx with
    | (Continue a, wasmCtx') => k a wasmCtx'
    | (Return z, wasmCtx') => (Return z, wasmCtx')
    | (Throw, wasmCtx') => (Throw, wasmCtx')
    end.

Definition return_ {A} (z : Z) : Script A := λ wasmCtx, (Return z, wasmCtx).

(** An exception raised by the statement itself. [referenceError] is the
    evaluation of an identifier that no declaration binds, [typeError] the
    array destructuring of a value that has no iterator. *)
Definition throw {A} : Script A := λ wasmCtx, (Throw, wasmCtx).
Definition referenceError {A} : Script A := throw.
Definition typeError {A} : Script A := throw.

(** [try { body } catch { handler }] *)
Definition tryCatch {A} (body handler : Script A) : Script A :=
  λ wasmCtx,
    match body wasmCtx with
    | (Throw, wasmCtx') => handler wasmCtx'
    | r => r
    end.

(** What the guest observes of a call. *)
Inductive Completion :=
| Value (z : Z)
| Undefined          (* the body ended without a return statement *)
| Exception.         (* the exception left the handler *)

Definition call (body : Script ()) (wasmCtx : WASMModuleContext)
    : Completion * WASMModuleContext :=
  match body wasmCtx with
  | (Continue _, wasmCtx') => (Undefined, wasmCtx')
  | (Return z, wasmCtx') => (Value z, wasmCtx')
  | (Throw, wasmCtx') => (Exception, wasmCtx')
  end.

(** [for (let i = start; ...; i++) body], run [n] times. *)
Fixpoint forLoop {T} (n : nat) (i : Z) (body : Z → T → Script T) (acc : T)
    : Script T :=
  match n with
  | O => mret acc
  | S n' => acc' ← body i acc; forLoop n' (i + 1) body acc'
  end.

(** [for (let i = 0; i < xs.length; i++) body(xs[i])] *)
Fixpoint forEach {A T} (xs : list A) (body : A → T → Script T) (acc : T)
    : Script T :=
  match xs with
  | [] => mret acc
  | x :: xs' => acc' ← body x acc; forEach xs' body acc'
  end.

(** Modelled from the spec: the cursor view (allocator/CursorView is not
    among the sources). A read returns the value at the cursor and advances
    the cursor by the byte width of the type; a read outside the buffer is
    an error and reads nothing; values are little-endian. *)
Definition moveCursorView (offset : Z) : Script () :=
  λ wasmCtx,
    (Continue (),
     withCursorView wasmCtx (mkCursorView (buffer (cursorView wasmCtx)) offset)).

Definition readUint32 : Script Z :=
  λ wasmCtx,
    let v := cursorView wasmCtx in
    match getUint32 (buffer v) (cursor v) with
    | Some x =>
        (Continue x, withCursorView wasmCtx (mkCursorView (buffer v) (cursor v + 4)))
    | None => (Throw, wasmCtx)
    end.

Definition skipUint32 : Script () :=
  λ wasmCtx,
    let v := cursorView wasmCtx in
    (Continue (), withCursorView wasmCtx (mkCursorView (buffer v) (cursor v + 4))).

Definition readFloat32 : Script Z := readUint32.

Fixpoint readUint32Array (n : nat) : Script (list Z) :=
  match n with
  | O => mret []
  | S n' => x ← readUint32; xs ← readUint32Array n'; mret (x :: xs)
  end.

Definition readFloat32Array (n : nat) : Script (list Z) := readUint32Array n.

(** Modelled from the spec: a string argument is a (pointer, byteLength)
    pair into the shared buffer (WASMModuleContext is not among the
    sources); the bytes are kept undecoded. *)
Definition readString (ptr byteLength : Z) : Script (list Z) :=
  λ wasmCtx,
    (Continue (take (Z.to_nat byteLength)
                 (drop (Z.to_nat ptr) (buffer (cursorView wasmCtx)))),
     wasmCtx).

Definition readStringFromCursorView : Script (list Z) :=
  ptr ← readUint32;
  byteLength ← readUint32;
  readString ptr byteLength.

(** A nonzero handle read from a parameter block, resolved through
    [getScriptResource]; the result is the reference or [undefined]. *)
Definition resolve (expected : ResourceType.t) (id : Z) : Script (option Z) :=
  λ wasmCtx,
    (Continue (match getScriptResource wasmCtx expected id with
               | Some _ => Some id
               | None => None
               end),
     wasmCtx).

(** The bytes of an ASCII name as they appear in guest memory. *)
Definition utf8 (s : string) : list Z :=
  (λ a, Z.of_N (Ascii.N_of_ascii a)) <$> String.list_ascii_of_string s.

(** [!!readUint32(...)] and [if (id)]. *)
Definition nonzero (v : Z) : bool := negb (v =? 0).

(** ** Parameter-block readers *)

Inductive ExtensionValue :=
| KHRTexturesTransform (offset : list Z) (rotation : Z) (scale : list Z) (texCoord : Z)
| EmptyObject
| UndefinedValue.

Definition readExtensions (parseExtension : list Z → Script ExtensionValue)
    : Script (gmap (list Z) ExtensionValue) :=
  itemsPtr ← readUint32;
  count ← readUint32;
  forLoop (Z.to_nat count) 0
    (λ i extensions,
       moveCursorView (itemsPtr + i * 8);;
       name ← readStringFromCursorView;
       value ← parseExtension name;
       mret (<[name := value]> extensions))
    ∅.

(** The file holds two unmerged conflict hunks, around the declaration of
    [skipExtras] and around [readTextureInfo]. The side marked
    [Updated upstream] of the second hunk is not a function body that
    parses ([const extensions readTextureInfoExtensions(wasmCtx)]), so the
    embedding follows the side marked [Stashed changes] in both hunks. On
    that side the helper that skips the extras is declared as [skipExtras],
    and the name [readExtras], which the other readers call, is declared
    nowhere. *)
Definition skipExtras : Script () :=
  skipUint32;; skipUint32.

Definition readExtras : Script () := referenceError.

(** A handle field that may be 0; an id that does not resolve is read as
    absent and decoding goes on. *)
Definition readOptionalRef (expected : ResourceType.t) : Script (option Z) :=
  id ← readUint32;
  if nonzero id then resolve expected id else mret None.

Definition readTextureRef : Script (option Z) :=
  readOptionalRef ResourceType.Texture.

Definition readTextureInfoExtensions : Script (gmap (list Z) ExtensionValue) :=
  readExtensions
    (λ name,
       if decide (name = utf8 "KHR_textures_transform") then
         offset ← readFloat32Array 2;
         rotation ← readFloat32;
         scale ← readFloat32Array 2;
         texCoord ← readUint32;
         mret (KHRTexturesTransform offset rotation scale texCoord)
       else mret EmptyObject).

(** [readTextureInfo] drops the reference that [readTextureRef] returns,
    and its return statement [return { texture, extensions }] names two
    variables that are declared nowhere: when the reads have succeeded the
    function throws a ReferenceError, so it never yields a texture. *)
Definition readTextureInfo : Script (option Z) :=
  readTextureRef;;
  skipUint32;;
  readTextureInfoExtensions;;
  skipExtras;;
  referenceError.

Definition transformOf (extensions : gmap (list Z) ExtensionValue)
    : option (list Z * Z * list Z) :=
  match extensions !! utf8 "KHR_textures_transform" with
  | Some (KHRTexturesTransform offset rotation scale _) =>
      Some (offset, rotation, scale)
  | _ => None
  end.

(** [readNormalTextureInfo] passes [parseKHRTexturesTransformExtension] to
    [readExtensions]. No declaration binds that name, so evaluating the
    argument throws before [readExtensions] is entered; the statements
    after it are never reached. *)
Definition readNormalTextureInfo
    : Script (option Z * Z * option (list Z * Z * list Z)) :=
  normalTexture ← readOptionalRef ResourceType.Texture;
  skipUint32;;
  normalScale ← readFloat32;
  parseExtension ← referenceError;
  extensions ← readExtensions parseExtension;
  readExtras;;
  mret (normalTexture, normalScale, transformOf extensions).

(** [readOcclusionTextureInfo] is written like [readNormalTextureInfo] and
    throws at the same place. *)
Definition readOcclusionTextureInfo
    : Script (option Z * Z * option (list Z * Z * list Z)) :=
  occlusionTexture ← readOptionalRef ResourceType.Texture;
  skipUint32;;
  occlusionStrength ← readFloat32;
  parseExtension ← referenceError;
  extensions ← readExtensions parseExtension;
  readExtras;;
  mret (occlusionTexture, occlusionStrength, transformOf extensions).

(** The statements of [world_create_material] that precede the constructor,
    in source order, and the props object they would hand to it. The first
    [readTextureInfo] already throws. Further down, the object that
    [readOcclusionTextureInfo] returns is destructured as an array (a
    TypeError), and [readExtras] is called. *)
Definition readMaterialProps (propsPtr : Z) : Script RemoteMaterial :=
  moveCursorView propsPtr;;
  baseColorFactor ← readFloat32Array 4;
  baseColorTexture ← readTextureInfo;
  metallicFactor ← readFloat32;
  roughnessFactor ← readFloat32;
  metallicRoughnessTexture ← readTextureInfo;
  '(normalTexture, normalScale, normalTransform) ← readNormalTextureInfo;
  occlusionTextureInfo ← readOcclusionTextureInfo;
  '(occlusionTexture, occlusionTextureStrength) ←
    (typeError : Script (option Z * Z));
  emissiveTexture ← readTextureInfo;
  emissiveFactor ← readFloat32Array 3;
  alphaMode ← readUint32;
  alphaCutoff ← readFloat32;
  doubleSided ← readUint32;
  name ← readStringFromCursorView;
  extensions ← readExtensions (λ _, mret EmptyObject);
  let type :=
    if decide (is_Some (extensions !! utf8 "KHR_materials_unlit"))
    then MaterialType.Unlit else MaterialType.Standard in
  readExtensions (λ _, mret UndefinedValue);;
  readExtras;;
  mret (mkMaterial type baseColorFactor baseColorTexture metallicFactor
          roughnessFactor metallicRoughnessTexture normalTexture normalScale
          occlusionTexture occlusionTextureStrength emissiveTexture
          emissiveFactor alphaMode alphaCutoff (nonzero doubleSided) name
          normalTransform).

(** Modelled from the spec: the constructors of the RemoteResource classes
    (resource/RemoteResources is not among the sources). A guest call that
    creates a resource allocates a new id and inserts it into both the
    registry and the calling script's capability set. *)
Definition allocateResource (rm : ResourceManager) (r : Resource)
    : option (Z * ResourceManager) :=
  let eid := nextEid rm in
  Some (eid, mkManager ({[eid]} ∪ resourceIds rm) (<[eid := r]> (resourceMap rm)) (eid + 1)).

(** ** Resource constructors of the ABI *)

Section WebSG.

(** [new RemoteX(wasmCtx.resourceManager, props)]: the new eid and the
    manager after registration, or [None] when the constructor throws. *)
Context (construct : ResourceManager → Resource → option (Z * ResourceManager)).

(** The enumerations of resource/schema, as the test [E[v] !== undefined]. *)
Context (LightType ColliderType MeshPrimitiveMode MeshPrimitiveAttributeIndex : Z → bool).

(** [readFloat32ArrayInto(wasmCtx, ptr, target)] of WASMModuleContext: the
    new contents of [target]. *)
Context (readFloat32ArrayInto : list Z → Z → list Z → list Z).

Definition new (r : Resource) : Script Z :=
  λ wasmCtx,
    match construct (resourceManager wasmCtx) r with
    | Some (eid, rm) => (Continue eid, withManager wasmCtx rm)
    | None => (Throw, wasmCtx)
    end.

Definition readAttribute (attributesPtr attributeIndex : Z)
    (attributes : gmap Z Z) : Script (gmap Z Z) :=
  moveCursorView (attributesPtr + attributeIndex * 8);;
  attributeKey ← readUint32;
  if MeshPrimitiveAttributeIndex attributeKey then
    attributeAccessorId ← readUint32;
    accessor ← resolve ResourceType.Accessor attributeAccessorId;
    match accessor with
    | None => return_ (-1)
    | Some a => mret (<[attributeKey := a]> attributes)
    end
  else return_ (-1).

(** A handle field that may be 0 and must resolve otherwise. *)
Definition readCheckedRef (expected : ResourceType.t) : Script (option Z) :=
  id ← readUint32;
  if nonzero id then
    r ← resolve expected id;
    match r with
    | None => return_ (-1)
    | Some x => mret (Some x)
    end
  else mret None.

(** One turn of the parsing loop of [world_create_mesh]. *)
Definition readPrimitive (primitivesPtr primitiveIndex : Z)
    (primitiveProps : list MeshPrimitiveProps) : Script (list MeshPrimitiveProps) :=
  moveCursorView (primitivesPtr + primitiveIndex * 20);;
  attributesPtr ← readUint32;
  attributeCount ← readUint32;
  attributes ← forLoop (Z.to_nat attributeCount) 0 (readAttribute attributesPtr) ∅;
  indices ← readCheckedRef ResourceType.Accessor;
  material ← readCheckedRef ResourceType.Material;
  mode ← readUint32;
  if MeshPrimitiveMode mode then
    mret (primitiveProps ++ [mkPrimitiveProps attributes indices material mode])
  else return_ (-1).

Definition parsePrimitives (primitivesPtr primitivesCount : Z)
    : Script (list MeshPrimitiveProps) :=
  forLoop (Z.to_nat primitivesCount) 0 (readPrimitive primitivesPtr) [].

Definition createPrimitives (primitiveProps : list MeshPrimitiveProps)
    : Script (list Z) :=
  forEach primitiveProps
    (λ props primitives, p ← new (RMeshPrimitive props); mret (primitives ++ [p]))
    [].

(** The reads of [world_create_mesh] that precede the parsing loop. *)
Definition readMeshHeader (propsPtr : Z) : Script (Z * Z * list Z) :=
  moveCursorView propsPtr;;
  primitivesPtr ← readUint32;
  primitivesCount ← readUint32;
  skipUint32;;
  skipUint32;;
  name ← readStringFromCursorView;
  mret (primitivesPtr, primitivesCount, name).

Definition world_create_mesh (propsPtr : Z) :=
  call (tryCatch
    ('(primitivesPtr, primitivesCount, name) ← readMeshHeader propsPtr;
     primitiveProps ← parsePrimitives primitivesPtr primitivesCount;
     primitives ← createPrimitives primitiveProps;
     mesh ← new (RMesh (mkMesh name primitives));
     return_ mesh)
    (return_ 0)).

Definition world_create_material (propsPtr : Z) :=
  call
    (props ← readMaterialProps propsPtr;
     material ← new (RMaterial props);
     return_ material).

Definition create_light (type : Z) :=
  call
    (if LightType type then
       light ← new (RLight type);
       return_ light
     else return_ (-1)).

Definition create_collider (colliderPropsPtr : Z) :=
  call
    (moveCursorView colliderPropsPtr;;
     type ← readUint32;
     if ColliderType type then
       isTrigger ← readUint32;
       size ← readFloat32Array 3;
       radius ← readFloat32;
       height ← readFloat32;
       meshId ← readUint32;
       mesh ← (if nonzero meshId then resolve ResourceType.Mesh meshId else mret None);
       collider ← new (RCollider
         (mkCollider type (nonzero isTrigger) size radius height mesh));
       return_ collider
     else return_ (-1)).

Definition create_ui_canvas (propsPtr : Z) :=
  call
    (moveCursorView propsPtr;;
     size ← readFloat32Array 2;
     width ← readFloat32;
     height ← readFloat32;
     tryCatch
       (uiCanvas ← new (RUICanvas (mkUICanvas size width height));
        return_ uiCanvas)
       (return_ (-1))).

(** ** UI text *)

Definition setColor (wasmCtx : WASMModuleContext) (textId : Z) (c : list Z)
    : WASMModuleContext :=
  withResourceMap wasmCtx
    (<[textId := RUIText (mkUIText c)]> (resourceMap (resourceManager wasmCtx))).

Definition ui_text_set_color (textId colorPtr : Z) :=
  call
    (λ wasmCtx,
       match getScriptUIText wasmCtx textId with
       | None => (Return (-1), wasmCtx)
       | Some flex =>
           (Continue (),
            setColor wasmCtx textId
              (readFloat32ArrayInto (buffer (cursorView wasmCtx)) colorPtr (color flex)))
       end).

End WebSG.

(** ** Specification vocabulary *)

(** [sibling_chain m cur l]: following [nextSibling] from [cur] in the
    registry [m] visits exactly the nodes [l], in this order, and ends. *)
Inductive sibling_chain (m : gmap Z Resource) : option Z → list Z → Prop :=
| chain_end : sibling_chain m None []
| chain_next c n l :
    m !! c = Some (RNode n) →
    sibling_chain m (nextSibling n) l →
    sibling_chain m (Some c) (c :: l).

(** The children a script can see: those in its capability set, in raw
    sibling order. *)
Definition visibleChildren (ids : gset Z) (l : list Z) : list Z :=
  filter (λ c, c ∈ ids) l.

(** Storing the ids [l] into consecutive elements [i], [i+1], ... of the
    guest array at [nodeArrPtr]. *)
Fixpoint writeIds (heap : list Z) (nodeArrPtr i : Z) (l : list Z) : list Z :=
  match l with
  | [] => heap
  | c :: l' => writeIds (U32Heap_store heap nodeArrPtr i c) nodeArrPtr (i + 1) l'
  end.

(** The cursor at the front of a chain. *)
Definition headOf (l : list Z) : option Z :=
  match l with [] => None | c :: _ => Some c end.

(** [U32Heap[nodeArrPtr / 4 + i]] as the guest reads it back. *)
Definition U32Heap_load (buf : list Z) (nodeArrPtr i : Z) : option Z :=
  if decide (nodeArrPtr mod 4 = 0) then getUint32 buf (4 * (nodeArrPtr / 4 + i))
  else None.

(** A statement that only decodes: it leaves the resource manager as it
    found it, and when it executes a return statement the value returned
    satisfies [ok]. *)
Definition decoder {A} (ok : Z → Prop) (m : Script A) : Prop :=
  ∀ wasmCtx,
    resourceManager (m wasmCtx).2 = resourceManager wasmCtx ∧
    ∀ z, (m wasmCtx).1 = Return z → ok z.

(** Validation failures return -1. *)
Definition failure (z : Z) : Prop := z = -1.

(** No return statement at all. *)
Definition never (z : Z) : Prop := False.

(** ** Example inputs *)

(** Enumeration tables used by the examples: [n] consecutive values from
    [first]. *)
Definition enumRange (first n : Z) (v : Z) : bool :=
  (first <=? v) && (v <? first + n).

Definition exLightType := enumRange 0 3.
Definition exColliderType := enumRange 0 6.
Definition exMeshPrimitiveMode := enumRange 0 7.
Definition exMeshPrimitiveAttributeIndex := enumRange 0 8.

(** A constructor that always throws. *)
Definition failingConstructor (rm : ResourceManager) (r : Resource)
    : option (Z * ResourceManager) := None.

(** Element-wise copy of 32-bit floats from guest memory into [target]. *)
Definition copyFloat32 (buf : list Z) (ptr : Z) (target : list Z) : list Z :=
  imap (λ i old, default old (getUint32 buf (ptr + 4 * Z.of_nat i))) target.

(** Little-endian words as a memory image. *)
Definition words (ws : list Z) : list Z := ws ≫= le32.

Definition plainNode (nextSibling : option Z) : Resource :=
  RNode (mkNode None None None nextSibling false).

(** A scene (id 1) with five children 10, 11, 12, 13, 14. *)
Definition exSceneMap : gmap Z Resource :=
  {[ 1 := RScene (mkScene (Some 10));
     10 := plainNode (Some 11);
     11 := plainNode (Some 12);
     12 := plainNode (Some 13);
     13 := plainNode (Some 14);
     14 := plainNode None ]}.

(** A script that owns the scene and the children 11, 12 and 14. *)
Definition exSceneCtx : WASMModuleContext :=
  mkCtx (mkManager {[1; 11; 12; 14]} exSceneMap 15)
        (mkCursorView (replicate 32 0) 0).

(** Script A created node 7 and owns it; script B owns nothing. Both see
    the same registry. *)
Definition exNodeMap : gmap Z Resource :=
  {[ 7 := RNode (mkNode None None None None false) ]}.
Definition exScriptA : WASMModuleContext :=
  mkCtx (mkManager {[7]} exNodeMap 8) (mkCursorView [] 0).
Definition exScriptB : WASMModuleContext :=
  mkCtx (mkManager ∅ exNodeMap 8) (mkCursorView [] 0).

(** A node 21 whose parent 20 and parent scene 1 belong to somebody else. *)
Definition exChildMap : gmap Z Resource :=
  {[ 1 := RScene (mkScene (Some 20));
     20 := RNode (mkNode None (Some 1) (Some 21) None true);
     21 := RNode (mkNode (Some 20) (Some 1) None None true) ]}.
Definition exChildCtx : WASMModuleContext :=
  mkCtx (mkManager {[21]} exChildMap 22) (mkCursorView [] 0).

(** A mesh parameter block at offset 0: two primitives at offset 24, no
    attributes; the first has mode 4, the second has mode 99. *)
Definition exMeshMemory : list Z :=
  words [24; 2; 0; 0; 0; 0;
         0; 0; 0; 0; 4;
         0; 0; 0; 0; 99].
Definition exMeshCtx : WASMModuleContext :=
  mkCtx (mkManager ∅ ∅ 1) (mkCursorView exMeshMemory 0).

(** The same block with mode 4 in both primitives. *)
Definition exMeshOkCtx : WASMModuleContext :=
  mkCtx (mkManager ∅ ∅ 1)
        (mkCursorView (words [24; 2; 0; 0; 0; 0;
                              0; 0; 0; 0; 4;
                              0; 0; 0; 0; 4]) 0).

(** A material parameter block at offset 0: every field is zero except
    alphaMode (the word at byte 164), which is 99. *)
Definition exMaterialMemory : list Z :=
  words (replicate 41 0 ++ [99] ++ replicate 10 0).
Definition exMaterialCtx : WASMModuleContext :=
  mkCtx (mkManager ∅ ∅ 1) (mkCursorView exMaterialMemory 0).

(** A collider parameter block at offset 0 of script B's memory: type 0,
    not a trigger, and mesh id 7; mesh 7 is registered but belongs to
    another script. *)
Definition exColliderCtx : WASMModuleContext :=
  mkCtx (mkManager ∅ {[ 7 := RMesh (mkMesh [] []) ]} 8)
        (mkCursorView (words [0; 0; 0; 0; 0; 0; 0; 7]) 0).

(** A script that owns the UI text 5; the new colour is at offset 0. *)
Definition exTextCtx : WASMModuleContext :=
  mkCtx (mkManager {[5]} {[ 5 := RUIText (mkUIText [0; 0; 0; 0]) ]} 6)
        (mkCursorView (words [1; 2; 3; 4]) 0).

(** ** Further handlers of the ABI *)

Definition asMaterial (r : Resource) : option RemoteMaterial :=
  match r with RMaterial m => Some m | _ => None end.
Definition asMesh (r : Resource) : option RemoteMesh :=
  match r with RMesh m => Some m | _ => None end.
Definition asMeshPrimitive (r : Resource) : option MeshPrimitiveProps :=
  match r with RMeshPrimitive p => Some p | _ => None end.
Definition asUICanvas (r : Resource) : option RemoteUICanvas :=
  match r with RUICanvas c => Some c | _ => None end.

Definition getScriptMaterial (wasmCtx : WASMModuleContext) (id : Z) : option RemoteMaterial :=
  getScriptResource wasmCtx ResourceType.Material id ≫= asMaterial.
Definition getScriptMesh (wasmCtx : WASMModuleContext) (id : Z) : option RemoteMesh :=
  getScriptResource wasmCtx ResourceType.Mesh id ≫= asMesh.
Definition getScriptUICanvas (wasmCtx : WASMModuleContext) (id : Z) : option RemoteUICanvas :=
  getScriptResource wasmCtx ResourceType.UICanvas id ≫= asUICanvas.

(** [getScriptResourceRef]: the id of a referenced resource as the script
    may see it. The reference is checked against the capability set only. *)
Definition getScriptResourceRef (wasmCtx : WASMModuleContext)
    (refResource : option Z) : Z :=
  match refResource with
  | None => 0
  | Some resourceId =>
      if decide (resourceId ∈ resourceIds (resourceManager wasmCtx))
      then resourceId else 0
  end.

Definition material_get_base_color_texture (wasmCtx : WASMModuleContext)
    (materialId : Z) : Z :=
  match getScriptMaterial wasmCtx materialId with
  | None => 0
  | Some m => getScriptResourceRef wasmCtx (baseColorTexture m)
  end.

Definition setBaseColorTexture (m : RemoteMaterial) (t : option Z) : RemoteMaterial :=
  mkMaterial (material_type m) (baseColorFactor m) t (metallicFactor m)
    (roughnessFactor m) (metallicRoughnessTexture m) (normalTexture m)
    (normalScale m) (occlusionTexture m) (occlusionTextureStrength m)
    (emissiveTexture m) (emissiveFactor m) (alphaMode m) (alphaCutoff m)
    (doubleSided m) (material_name m) (normalTextureTransform m).

Definition material_set_base_color_texture (wasmCtx : WASMModuleContext)
    (materialId textureId : Z) : Z * WASMModuleContext :=
  match getScriptMaterial wasmCtx materialId with
  | None => (-1, wasmCtx)
  | Some m =>
      match getScriptResource wasmCtx ResourceType.Texture textureId with
      | None => (-1, wasmCtx)
      | Some _ =>
          (0, withResourceMap wasmCtx
                (<[materialId := RMaterial (setBaseColorTexture m (Some textureId))]>
                   (resourceMap (resourceManager wasmCtx))))
      end
  end.

Definition mesh_get_primitive_count (wasmCtx : WASMModuleContext) (meshId : Z) : Z :=
  match getScriptMesh wasmCtx meshId with
  | Some m => Z.of_nat (length (primitives m))
  | None => -1
  end.

(** [mesh?.primitives[index]]: the primitive object and the reference to
    it. An index outside the array gives [undefined]; so does, in the
    model, a reference that names no primitive of the registry (an object
    reference always names its object). *)
Definition primitiveAt (wasmCtx : WASMModuleContext) (meshId index : Z)
    : option (Z * MeshPrimitiveProps) :=
  m ← getScriptMesh wasmCtx meshId;
  p ← (if decide (0 ≤ index) then primitives m !! Z.to_nat index else None);
  props ← resourceMap (resourceManager wasmCtx) !! p ≫= asMeshPrimitive;
  Some (p, props).

Definition mesh_get_primitive_attribute (wasmCtx : WASMModuleContext)
    (meshId index attribute : Z) : Z :=
  default 0 ('(_, props) ← primitiveAt wasmCtx meshId index;
             attributes props !! attribute).

Definition mesh_get_primitive_indices (wasmCtx : WASMModuleContext)
    (meshId index : Z) : Z :=
  default 0 ('(_, props) ← primitiveAt wasmCtx meshId index; indices props).

Definition mesh_get_primitive_material (wasmCtx : WASMModuleContext)
    (meshId index : Z) : Z :=
  default 0 ('(_, props) ← primitiveAt wasmCtx meshId index; material props).

Definition mesh_get_primitive_mode (wasmCtx : WASMModuleContext)
    (meshId index : Z) : Z :=
  default 0 ('(_, props) ← primitiveAt wasmCtx meshId index; Some (mode props)).

Definition mesh_set_primitive_material (wasmCtx : WASMModuleContext)
    (meshId index materialId : Z) : Z * WASMModuleContext :=
  match primitiveAt wasmCtx meshId index with
  | None => (-1, wasmCtx)
  | Some (p, props) =>
      match getScriptResource wasmCtx ResourceType.Material materialId with
      | None => (-1, wasmCtx)
      | Some _ =>
          (0, withResourceMap wasmCtx
                (<[p := RMeshPrimitive
                          (mkPrimitiveProps (attributes props) (indices props)
                             (Some materialId) (mode props))]>
                   (resourceMap (resourceManager wasmCtx))))
      end
  end.

(** A number handed back to the guest: an integer literal of the handler
    or a 32-bit float taken from a resource (its bit pattern). *)
Inductive JsNumber :=
| JsInt (z : Z)
| JsFloat32 (bits : Z).

Definition ui_canvas_get_width (wasmCtx : WASMModuleContext) (canvasId : Z) : JsNumber :=
  match getScriptUICanvas wasmCtx canvasId with
  | None => JsInt (-1)
  | Some canvas => JsFloat32 (canvas_width canvas)
  end.

Definition ui_canvas_get_height (wasmCtx : WASMModuleContext) (canvasId : Z) : JsNumber :=
  match getScriptUICanvas wasmCtx canvasId with
  | None => JsInt (-1)
  | Some canvas => JsFloat32 (canvas_height canvas)
  end.

Definition ui_canvas_set_width (wasmCtx : WASMModuleContext) (canvasId width : Z)
    : Z * WASMModuleContext :=
  match getScriptUICanvas wasmCtx canvasId with
  | None => (-1, wasmCtx)
  | Some canvas =>
      (0, withResourceMap wasmCtx
            (<[canvasId := RUICanvas
                 (mkUICanvas (canvas_size canvas) width (canvas_height canvas))]>
               (resourceMap (resourceManager wasmCtx))))
  end.

Definition ui_canvas_set_height (wasmCtx : WASMModuleContext) (canvasId height : Z)
    : Z * WASMModuleContext :=
  match getScriptUICanvas wasmCtx canvasId with
  | None => (-1, wasmCtx)
  | Some canvas =>
      (0, withResourceMap wasmCtx
            (<[canvasId := RUICanvas
                 (mkUICanvas (canvas_size canvas) (canvas_width canvas) height)]>
               (resourceMap (resourceManager wasmCtx))))
  end.

(** The part of the game state the environment handlers use:
    [ctx.worldResource.environment], given by the reference to its
    [publicScene]. *)
Record GameState := mkGameState {
  environment : option Z;
}.

(** [ctx.worldResource.environment?.publicScene.eid || 0] *)
Definition world_get_environment (ctx : GameState) : Z :=
  default 0 (environment ctx).

Definition world_set_environment (ctx : GameState) (wasmCtx : WASMModuleContext)
    (sceneId : Z) : Z * GameState :=
  match environment ctx with
  | None => (-1, ctx)
  | Some _ =>
      match getScriptScene wasmCtx sceneId with
      | Some _ => (0, mkGameState (Some sceneId))
      | None => (-1, ctx)
      end
  end.

(** ** Vocabulary for the properties of the decoders *)

(** A reference that is absent or names a resource of type [t] in the
    caller's capability set. *)
Definition owned (rm : ResourceManager) (t : ResourceType.t) (ref : option Z) : Prop :=
  ∀ id, ref = Some id →
    id ∈ resourceIds rm ∧
    ∃ r, resourceMap rm !! id = Some r ∧ resourceType r = t.

(** What the parsing loop of [world_create_mesh] accepts. *)
Definition validPrimitive (rm : ResourceManager)
    (Mode Attr : Z → bool) (p : MeshPrimitiveProps) : Prop :=
  Mode (mode p) = true ∧
  owned rm ResourceType.Accessor (indices p) ∧
  owned rm ResourceType.Material (material p) ∧
  ∀ key a, attributes p !! key = Some a →
    Attr key = true ∧ owned rm ResourceType.Accessor (Some a).

(** A statement that always throws: the statement after it is never
    reached, nothing is returned, and the resource manager is as before. *)
Definition throws {A} (m : Script A) : Prop :=
  ∀ wasmCtx,
    (m wasmCtx).1 = Throw ∧
    resourceManager (m wasmCtx).2 = resourceManager wasmCtx.

(** A constructor that registers what it constructs: the new id is in the
    capability set and names the resource in the registry. *)
Definition registering
    (construct : ResourceManager → Resource → option (Z * ResourceManager)) : Prop :=
  ∀ rm r eid rm', construct rm r = Some (eid, rm') →
    eid ∈ resourceIds rm' ∧ resourceMap rm' !! eid = Some r.

(** A script that owns material 3 and texture 4; texture 9 belongs to
    somebody else. *)
Definition exMaterialOwnerCtx : WASMModuleContext :=
  mkCtx (mkManager {[3; 4]}
           {[ 3 := RMaterial (mkMaterial MaterialType.Standard [0; 0; 0; 0] None 0 0
                                None None 0 None 0 None [0; 0; 0] 0 0 false [] None);
              4 := RTexture;
              9 := RTexture ]} 10)
        (mkCursorView [] 0).

(** A script that owns mesh 3 with the primitives 1 and 2, and material 4. *)
Definition exMeshOwnerCtx : WASMModuleContext :=
  mkCtx (mkManager {[1; 2; 3; 4]}
           {[ 1 := RMeshPrimitive (mkPrimitiveProps ∅ None None 4);
              2 := RMeshPrimitive (mkPrimitiveProps ∅ None None 4);
              3 := RMesh (mkMesh [] [1; 2]);
              4 := RMaterial (mkMaterial MaterialType.Standard [0; 0; 0; 0] None 0 0
                                None None 0 None 0 None [0; 0; 0] 0 0 false [] None) ]} 5)
        (mkCursorView [] 0).

(** A script that owns the UI canvas 6. *)
Definition exCanvasCtx : WASMModuleContext :=
  mkCtx (mkManager {[6]} {[ 6 := RUICanvas (mkUICanvas [0; 0] 10 20) ]} 7)
        (mkCursorView [] 0).

(** Node 30 with the children 31, 32, 33; the caller owns 30, 31 and 33.
    Guest memory is 16 zero bytes. *)
Definition exFamilyMap : gmap Z Resource :=
  {[ 30 := RNode (mkNode None None (Some 31) None true);
     31 := RNode (mkNode (Some 30) None None (Some 32) true);
     32 := RNode (mkNode (Some 30) None None (Some 33) true);
     33 := RNode (mkNode (Some 30) None None None true) ]}.
Definition exFamilyCtx : WASMModuleContext :=
  mkCtx (mkManager {[30; 31; 33]} exFamilyMap 34)
        (mkCursorView (replicate 16 0) 0).

(** A material parameter block whose base colour texture is 4 (owned by
    the caller) and whose emissive texture is 9 (registered, but foreign). *)
Definition exTexturedMaterialCtx : WASMModuleContext :=
  mkCtx (mkManager {[4]} {[ 4 := RTexture; 9 := RTexture ]} 10)
        (mkCursorView
           (words (replicate 4 0 ++ [4] ++ replicate 27 0 ++ [9] ++ replicate 19 0))
           0).

(** A canvas parameter block at offset 0: size (1, 2), width 3, height 4. *)
Definition exCanvasPropsCtx : WASMModuleContext :=
  mkCtx (mkManager ∅ ∅ 1) (mkCursorView (words [1; 2; 3; 4]) 0).

(** The collider block of [exColliderCtx], decoded by the script that owns
    mesh 7. *)
Definition exColliderOwnerCtx : WASMModuleContext :=
  mkCtx (mkManager {[7]} {[ 7 := RMesh (mkMesh [] []) ]} 8)
        (mkCursorView (words [0; 0; 0; 0; 0; 0; 0; 7]) 0).

(** A mesh block with one primitive at offset 24: one attribute (key 0,
    accessor 5) at offset 44, then indices 0, material 6 and mode 4. The
    caller owns accessor 5 and material 6. *)
Definition exAttributeMeshCtx : WASMModuleContext :=
  mkCtx (mkManager {[5; 6]}
           {[ 5 := RAccessor;
              6 := RMaterial (mkMaterial MaterialType.Standard [0; 0; 0; 0] None 0 0
                                None None 0 None 0 None [0; 0; 0] 0 0 false [] None) ]} 7)
        (mkCursorView (words [24; 1; 0; 0; 0; 0;
                              44; 1; 0; 0; 0;
                              0; 5; 0; 6; 4]) 0).

(** Two contexts in which the capability check decides alike: the same
    capability set, and under every id a resource of the same type (or
    none). *)
Definition sameAccess (wasmCtx wasmCtx' : WASMModuleContext) : Prop :=
  resourceIds (resourceManager wasmCtx') = resourceIds (resourceManager wasmCtx)
  ∧ ∀ id, resourceType <$> resourceMap (resourceManager wasmCtx') !! id
          = resourceType <$> resourceMap (resourceManager wasmCtx) !! id.

(** ** Keyboard handling of the input module (engine/input/input.main.ts) *)

Module InputModule.

(** The state the handlers of [init] close over: the [last] map and the
    ring buffer. *)
Record State (RingBuffer : Type) := mkState {
  last : gmap string bool;
  inputRingBuffer : RingBuffer;
}.
Arguments mkState {RingBuffer} last inputRingBuffer.
Arguments last {RingBuffer} s.
Arguments inputRingBuffer {RingBuffer} s.

Section Handlers.

Context {RingBuffer : Type}.

(** [enqueueInputRingBuffer(irb, keyCode, ...values)] of input/RingBuffer:
    whether the item was stored, and the buffer afterwards. *)
Context (enqueueInputRingBuffer : RingBuffer → Z → list Z → bool * RingBuffer).

(** [codeToKeyCode] of input/KeyCodes. *)
Context (codeToKeyCode : string → Z).

(** [enqueue]; [locked] is [document.pointerLockElement === canvas] when
    the event arrives. A full buffer only logs a warning. *)
Definition enqueue (locked : bool) (irb : RingBuffer) (keyCode : Z)
    (values : list Z) : RingBuffer :=
  if locked then (enqueueInputRingBuffer irb keyCode values).2 else irb.

Definition onKeyDown (locked : bool) (code : string) (s : State RingBuffer)
    : State RingBuffer :=
  if default false (last s !! code) then s
  else mkState (<[code := true]> (last s))
               (enqueue locked (inputRingBuffer s) (codeToKeyCode code) [1]).

Definition onKeyUp (locked : bool) (code : string) (s : State RingBuffer)
    : State RingBuffer :=
  mkState (<[code := false]> (last s))
          (enqueue locked (inputRingBuffer s) (codeToKeyCode code) [0]).

End Handlers.

End InputModule.

(** ** Member menu of the member list dialog
    (ui/views/session/dialogs/MemberListDialog.tsx) *)

Module MemberListDialog.

(** The [key] of each [DropdownMenuItem] that [renderMemberTile] can push. *)
Inductive MenuItem := Kick | Ban | Unban | Disinvite | Invite.

(** The [menuItems] array built by the [switch (membership)]. *)
Definition menuItems (membership : string) (canInvite canKick canBan : bool)
    (myPL userPL : Z) : list MenuItem :=
  if decide (membership = "join") then
    (if canKick && (userPL <? myPL) then [Kick] else [])
    ++ (if canBan && (userPL <? myPL) then [Ban] else [])
  else if decide (membership = "ban") then
    (if canKick && (userPL <? myPL) then [Unban] else [])
  else if decide (membership = "invite") then
    (if canKick && (userPL <? myPL) then [Disinvite] else [])
  else if decide (membership = "leave") then
    (if canInvite then [Invite] else [])
  else [].

(** [menuItems.length > 0 && userId !== session.userId]: whether the tile
    gets its options menu. *)
Definition showsOptions (items : list MenuItem) (userId sessionUserId : string) : bool :=
  (0 <? Z.of_nat (length items)) && negb (bool_decide (userId = sessionUserId)).

End MemberListDialog.

(** * Properties *)

(** ** The capability check *)

Lemma getScriptResource_Some wasmCtx expected id r :
  getScriptResource wasmCtx expected id = Some r ↔
  id ∈ resourceIds (resourceManager wasmCtx) ∧
  resourceMap (resourceManager wasmCtx) !! id = Some r ∧
  resourceType r = expected.
Proof.
  unfold getScriptResource, checkAccess.
  destruct (decide (id ∈ _)) as [Hin|Hout].
  - destruct (resourceMap _ !! id) as [r'|] eqn:Hget.
    + destruct (decide (resourceType r' = expected)) as [Hty|Hty].
      * split; [intros [= <-]; auto | intros (_ & [= <-] & _); reflexivity].
      * split; [discriminate | intros (_ & [= <-] & ?); contradiction].
    + split; [discriminate | intros (_ & ? & _); discriminate].
  - split; [discriminate | intros (? & _); contradiction].
Qed.

Lemma getScriptResource_unauthorized wasmCtx expected id :
  id ∉ resourceIds (resourceManager wasmCtx) →
  getScriptResource wasmCtx expected id = None.
Proof.
  intros Hout. unfold getScriptResource, checkAccess.
  destruct (decide (id ∈ _)); [contradiction|reflexivity].
Qed.

Lemma getScriptNode_Some wasmCtx id n :
  getScriptNode wasmCtx id = Some n ↔
  id ∈ resourceIds (resourceManager wasmCtx) ∧
  resourceMap (resourceManager wasmCtx) !! id = Some (RNode n).
Proof.
  unfold getScriptNode. split.
  - intros H. apply bind_Some in H as (r & Hr & Hn).
    apply getScriptResource_Some in Hr as (? & ? & ?).
    destruct r; simplify_eq/=. auto.
  - intros [Hin Hget]. apply bind_Some. exists (RNode n). split; [|done].
    apply getScriptResource_Some. auto.
Qed.

Lemma getScriptScene_Some wasmCtx id s :
  getScriptScene wasmCtx id = Some s ↔
  id ∈ resourceIds (resourceManager wasmCtx) ∧
  resourceMap (resourceManager wasmCtx) !! id = Some (RScene s).
Proof.
  unfold getScriptScene. split.
  - intros H. apply bind_Some in H as (r & Hr & Hn).
    apply getScriptResource_Some in Hr as (? & ? & ?).
    destruct r; simplify_eq/=. auto.
  - intros [Hin Hget]. apply bind_Some. exists (RScene s). split; [|done].
    apply getScriptResource_Some. auto.
Qed.

Lemma getScriptNode_unauthorized wasmCtx id :
  id ∉ resourceIds (resourceManager wasmCtx) → getScriptNode wasmCtx id = None.
Proof.
  intros H. unfold getScriptNode. by rewrite getScriptResource_unauthorized.
Qed.

(** C7. The access check fails in exactly three ways, each with its own
    diagnostic: the id is not in the capability set (NotAuthorized), the id
    is in the set but absent from the registry map (NotFound), the stored
    resource carries a different resourceType than expected (TypeMismatch).
    In all three the caller receives no resource, and a resource is
    returned only when none of them applies. *)
Theorem getScriptResource_three_way wasmCtx expected id :
  let rm := resourceManager wasmCtx in
  (checkAccess wasmCtx expected id = inl NotAuthorized ↔ id ∉ resourceIds rm) ∧
  (checkAccess wasmCtx expected id = inl NotFound ↔
     id ∈ resourceIds rm ∧ resourceMap rm !! id = None) ∧
  (checkAccess wasmCtx expected id = inl TypeMismatch ↔
     id ∈ resourceIds rm ∧
     ∃ r, resourceMap rm !! id = Some r ∧ resourceType r ≠ expected) ∧
  (getScriptResource wasmCtx expected id = None ↔
     ∃ e, checkAccess wasmCtx expected id = inl e) ∧
  (∀ r, getScriptResource wasmCtx expected id = Some r ↔
     checkAccess wasmCtx expected id = inr r ∧
     id ∈ resourceIds rm ∧ resourceMap rm !! id = Some r ∧
     resourceType r = expected).
Proof.
  intros rm. unfold getScriptResource, checkAccess. fold rm.
  destruct (decide (id ∈ resourceIds rm)) as [Hin|Hout];
    [destruct (resourceMap rm !! id) as [r'|] eqn:Hget;
       [destruct (decide (resourceType r' = expected)) as [Hty|Hty]|]|];
    split_and!; try intros r; split; intros H;
    repeat match goal with
    | H : _ ∧ _ |- _ => destruct H
    | H : ∃ _, _ |- _ => destruct H
    end; simplify_eq; eauto; contradiction.
Qed.

(** ** Sibling chains *)

Lemma deref_node (m : gmap Z Resource) c n :
  m !! c = Some (RNode n) → deref m c = Some n.
Proof. intros H. unfold deref. by rewrite H. Qed.

Lemma visibleChildren_cons_in ids c l :
  c ∈ ids → visibleChildren ids (c :: l) = c :: visibleChildren ids l.
Proof. intros H. unfold visibleChildren. by rewrite filter_cons_True. Qed.

Lemma visibleChildren_cons_out ids c l :
  c ∉ ids → visibleChildren ids (c :: l) = visibleChildren ids l.
Proof. intros H. unfold visibleChildren. by rewrite filter_cons_False. Qed.

Lemma getScriptChildCount_loop_spec ids m cur l :
  sibling_chain m cur l →
  ∀ fuel count, (length l ≤ fuel)%nat →
  getScriptChildCount_loop fuel ids m cur count
  = Some (count + Z.of_nat (length (visibleChildren ids l))).
Proof.
  induction 1 as [|c n l Hc Hl IH]; intros fuel count Hfuel.
  - destruct fuel; simpl; f_equal; lia.
  - destruct fuel as [|fuel]; simpl in Hfuel; [lia|].
    simpl. rewrite (deref_node _ _ _ Hc). simpl.
    rewrite IH by lia.
    destruct (decide (c ∈ ids)) as [Hin|Hout].
    + rewrite visibleChildren_cons_in by done. simpl length. f_equal. lia.
    + rewrite visibleChildren_cons_out by done. reflexivity.
Qed.

(** C6. For a scene that passes the capability check, scene_get_node_count
    returns the number of the scene's children that are in the calling
    script's capability set (not the number of all children). *)
Theorem scene_get_node_count_visible fuel wasmCtx sceneId scene children :
  getScriptScene wasmCtx sceneId = Some scene →
  sibling_chain (resourceMap (resourceManager wasmCtx)) (firstNode scene) children →
  (length children ≤ fuel)%nat →
  scene_get_node_count fuel wasmCtx sceneId
  = Some (Z.of_nat (length
      (visibleChildren (resourceIds (resourceManager wasmCtx)) children))).
Proof.
  intros Hscene Hchain Hfuel.
  unfold scene_get_node_count, getScriptChildCount. rewrite Hscene. simpl.
  by rewrite (getScriptChildCount_loop_spec _ _ _ _ Hchain).
Qed.

Lemma exScene_chain :
  sibling_chain exSceneMap (Some 10) [10; 11; 12; 13; 14].
Proof.
  repeat (eapply chain_next; [vm_compute; reflexivity|simpl]).
  apply chain_end.
Qed.

Lemma exFamily_chain : sibling_chain exFamilyMap (Some 31) [31; 32; 33].
Proof.
  repeat (eapply chain_next; [vm_compute; reflexivity|simpl]).
  apply chain_end.
Qed.

(** The scenario of the specification: five children, three of them in the
    caller's set, count 3. *)
Lemma scene_get_node_count_visible_witness :
  scene_get_node_count 5 exSceneCtx 1 = Some 3.
Proof.
  exact (scene_get_node_count_visible 5 exSceneCtx 1 (mkScene (Some 10))
           [10; 11; 12; 13; 14] eq_refl exScene_chain (le_n 5)).
Defined.

(** ** Reading the guest array back *)

Lemma lookup_splice (buf w : list Z) (a x : nat) :
  (a + length w ≤ length buf)%nat →
  (take a buf ++ w ++ drop (a + length w) buf) !! x
  = if decide (a ≤ x < a + length w)%nat then w !! (x - a)%nat else buf !! x.
Proof.
  intros Hlen.
  assert (Htake : length (take a buf) = a) by (rewrite length_take; lia).
  case_decide as Hx.
  - rewrite lookup_app_r by lia. rewrite Htake.
    rewrite lookup_app_l by lia. reflexivity.
  - destruct (decide (x < a)%nat) as [Hlt|Hge].
    + rewrite lookup_app_l by lia. by rewrite lookup_take_lt.
    + rewrite lookup_app_r by lia. rewrite Htake.
      rewrite lookup_app_r by lia. rewrite lookup_drop.
      f_equal. lia.
Qed.

Lemma U32Heap_store_length buf nodeArrPtr i v :
  length (U32Heap_store buf nodeArrPtr i v) = length buf.
Proof.
  unfold U32Heap_store. repeat case_decide; try reflexivity.
  rewrite !length_app, length_take, length_drop. simpl. lia.
Qed.

Lemma le32_value v :
  0 ≤ v < 4294967296 →
  v mod 256 + 256 * ((v / 256) mod 256) + 65536 * ((v / 65536) mod 256)
    + 16777216 * ((v / 16777216) mod 256) = v.
Proof. intros Hv. Z.div_mod_to_equations. lia. Qed.

Lemma U32Heap_load_store_same buf nodeArrPtr i v :
  nodeArrPtr mod 4 = 0 →
  0 ≤ nodeArrPtr + 4 * i →
  nodeArrPtr + 4 * i + 4 ≤ Z.of_nat (length buf) →
  U32Heap_load (U32Heap_store buf nodeArrPtr i v) nodeArrPtr i
  = Some (v mod 4294967296).
Proof.
  intros Hal Hlo Hhi. unfold U32Heap_load, U32Heap_store.
  rewrite !decide_True by done.
  assert (Hoff : 4 * (nodeArrPtr / 4 + i) = nodeArrPtr + 4 * i).
  { Z.div_mod_to_equations. lia. }
  rewrite Hoff. rewrite decide_True by lia.
  set (a := Z.to_nat (nodeArrPtr + 4 * i)).
  set (w := v mod 4294967296).
  assert (Hw : 0 ≤ w < 4294967296) by (apply Z.mod_pos_bound; lia).
  unfold getUint32, byteAt.
  rewrite !decide_True by lia.
  replace (Z.to_nat (nodeArrPtr + 4 * i + 1)) with (a + 1)%nat by lia.
  replace (Z.to_nat (nodeArrPtr + 4 * i + 2)) with (a + 2)%nat by lia.
  replace (Z.to_nat (nodeArrPtr + 4 * i + 3)) with (a + 3)%nat by lia.
  change (a + 4)%nat with (a + length (le32 w))%nat.
  rewrite !lookup_splice by (simpl; lia).
  rewrite !decide_True by (simpl; lia).
  fold a.
  replace (a - a)%nat with 0%nat by lia.
  replace (a + 1 - a)%nat with 1%nat by lia.
  replace (a + 2 - a)%nat with 2%nat by lia.
  replace (a + 3 - a)%nat with 3%nat by lia.
  simpl. f_equal. by apply le32_value.
Qed.

Lemma U32Heap_load_store_other buf nodeArrPtr i j v :
  i ≠ j →
  0 ≤ nodeArrPtr + 4 * j →
  U32Heap_load (U32Heap_store buf nodeArrPtr i v) nodeArrPtr j
  = U32Heap_load buf nodeArrPtr j.
Proof.
  intros Hne Hlo. unfold U32Heap_load, U32Heap_store.
  case_decide as Hal; [|reflexivity].
  assert (Hoff : ∀ x, 4 * (nodeArrPtr / 4 + x) = nodeArrPtr + 4 * x).
  { intros x. Z.div_mod_to_equations. lia. }
  rewrite !Hoff. case_decide as Hin; [|reflexivity].
  set (a := Z.to_nat (nodeArrPtr + 4 * i)).
  unfold getUint32, byteAt.
  rewrite !decide_True by lia.
  change (a + 4)%nat with (a + length (le32 (v mod 4294967296)))%nat.
  rewrite !lookup_splice by (simpl; lia).
  rewrite !decide_False by (simpl; lia).
  reflexivity.
Qed.

Lemma writeIds_load_before nodeArrPtr l :
  ∀ i j h, j < i → 0 ≤ nodeArrPtr + 4 * j →
  U32Heap_load (writeIds h nodeArrPtr i l) nodeArrPtr j
  = U32Heap_load h nodeArrPtr j.
Proof.
  induction l as [|c l IH]; intros i j h Hlt Hlo; simpl; [done|].
  rewrite IH by lia. apply U32Heap_load_store_other; lia.
Qed.

Lemma writeIds_length l : ∀ heap nodeArrPtr i,
  length (writeIds heap nodeArrPtr i l) = length heap.
Proof.
  induction l as [|c l IH]; intros heap nodeArrPtr i; simpl; [done|].
  by rewrite IH, U32Heap_store_length.
Qed.

(** When the destination lies inside guest memory and is 4-byte aligned,
    element [i + j] of the guest array holds the [j]-th id of the list
    after the stores, as the unsigned 32-bit number the typed array keeps. *)
Lemma writeIds_load l : ∀ heap nodeArrPtr i j c,
  nodeArrPtr mod 4 = 0 →
  0 ≤ nodeArrPtr + 4 * i →
  nodeArrPtr + 4 * (i + Z.of_nat (length l)) ≤ Z.of_nat (length heap) →
  l !! j = Some c →
  U32Heap_load (writeIds heap nodeArrPtr i l) nodeArrPtr (i + Z.of_nat j)
  = Some (c mod 4294967296).
Proof.
  induction l as [|c0 l IH]; intros heap nodeArrPtr i j c Hal Hlo Hhi Hj;
    [done|].
  simpl in Hhi |- *.
  destruct j as [|j]; simpl in Hj.
  - injection Hj as ->. rewrite Z.add_0_r.
    rewrite writeIds_load_before by lia.
    by rewrite U32Heap_load_store_same by lia.
  - replace (i + Z.of_nat (S j)) with (i + 1 + Z.of_nat j) by lia.
    apply IH; try done; try lia.
    rewrite U32Heap_store_length. lia.
Qed.

(** Bytes outside the elements that are stored keep their value. *)
Lemma U32Heap_store_outside buf nodeArrPtr i v x :
  x < nodeArrPtr + 4 * i ∨ nodeArrPtr + 4 * i + 4 ≤ x →
  byteAt (U32Heap_store buf nodeArrPtr i v) x = byteAt buf x.
Proof.
  intros Hx. unfold U32Heap_store.
  case_decide as Hal; [|reflexivity].
  assert (Hoff : 4 * (nodeArrPtr / 4 + i) = nodeArrPtr + 4 * i).
  { Z.div_mod_to_equations. lia. }
  rewrite Hoff. case_decide as Hin; [|reflexivity].
  unfold byteAt. case_decide as Hpos; [|reflexivity].
  set (a := Z.to_nat (nodeArrPtr + 4 * i)).
  change (a + 4)%nat with (a + length (le32 (v mod 4294967296)))%nat.
  rewrite lookup_splice by (simpl; lia).
  rewrite decide_False by (simpl; lia). reflexivity.
Qed.

Lemma writeIds_outside l : ∀ heap nodeArrPtr i x,
  x < nodeArrPtr + 4 * i ∨ nodeArrPtr + 4 * (i + Z.of_nat (length l)) ≤ x →
  byteAt (writeIds heap nodeArrPtr i l) x = byteAt heap x.
Proof.
  induction l as [|c l IH]; intros heap nodeArrPtr i x Hx; simpl; [done|].
  simpl in Hx. rewrite IH by lia. apply U32Heap_store_outside. lia.
Qed.

(** ** Bulk child listing *)

Lemma getScriptChildren_loop_spec ids m nodeArrPtr maxCount cur l :
  sibling_chain m cur l →
  ∀ fuel i heap, (length l ≤ fuel)%nat →
  let written := take (Z.to_nat (maxCount - i)) (visibleChildren ids l) in
  getScriptChildren_loop fuel ids m nodeArrPtr maxCount cur i heap
  = Some (i + Z.of_nat (length written), writeIds heap nodeArrPtr i written).
Proof.
  induction 1 as [|c n l Hc Hl IH]; intros fuel i heap Hfuel; simpl.
  - change (visibleChildren ids []) with (@nil Z).
    destruct fuel; simpl; rewrite take_nil; simpl; do 2 f_equal; lia.
  - destruct fuel as [|fuel]; simpl in Hfuel; [lia|]. simpl.
    destruct (i <? maxCount) eqn:Hlt.
    + apply Z.ltb_lt in Hlt.
      rewrite (deref_node _ _ _ Hc). simpl.
      destruct (decide (c ∈ ids)) as [Hin|Hout].
      * rewrite IH by lia.
        rewrite visibleChildren_cons_in by done.
        replace (Z.to_nat (maxCount - i)) with (S (Z.to_nat (maxCount - (i + 1)))) by lia.
        simpl. do 2 f_equal. lia.
      * rewrite IH by lia.
        rewrite visibleChildren_cons_out by done. reflexivity.
    + apply Z.ltb_ge in Hlt.
      replace (Z.to_nat (maxCount - i)) with O by lia.
      rewrite take_0. simpl. do 2 f_equal. lia.
Qed.

Lemma getScriptChildren_spec fuel wasmCtx node nodeArrPtr maxCount children :
  sibling_chain (resourceMap (resourceManager wasmCtx)) (firstOf node) children →
  (length children ≤ fuel)%nat →
  let written :=
    take (Z.to_nat maxCount)
      (visibleChildren (resourceIds (resourceManager wasmCtx)) children) in
  getScriptChildren fuel wasmCtx node nodeArrPtr maxCount
  = Some (Z.of_nat (length written),
          withBuffer wasmCtx
            (writeIds (buffer (cursorView wasmCtx)) nodeArrPtr 0 written)).
Proof.
  intros Hchain Hfuel written. unfold getScriptChildren.
  rewrite (getScriptChildren_loop_spec _ _ nodeArrPtr maxCount _ _ Hchain) by done.
  simpl. rewrite Z.sub_0_r. reflexivity.
Qed.

(** What both entry points of the bulk listing do once the parent has
    passed the capability check. *)
Lemma getScriptChildren_listing fuel wasmCtx parent arrPtr maxCount children :
  sibling_chain (resourceMap (resourceManager wasmCtx)) (firstOf parent) children →
  (length children ≤ fuel)%nat →
  let visible := visibleChildren (resourceIds (resourceManager wasmCtx)) children in
  let k := (Z.to_nat maxCount `min` length visible)%nat in
  ∃ wasmCtx',
    getScriptChildren fuel wasmCtx parent arrPtr maxCount
      = Some (Z.of_nat k, wasmCtx')
    ∧ (0 ≤ maxCount → Z.of_nat k ≤ maxCount)
    ∧ (maxCount ≤ 0 → k = 0%nat)
    ∧ (Z.of_nat (length visible) ≤ maxCount → k = length visible)
    ∧ resourceManager wasmCtx' = resourceManager wasmCtx
    ∧ cursor (cursorView wasmCtx') = cursor (cursorView wasmCtx)
    ∧ length (buffer (cursorView wasmCtx')) = length (buffer (cursorView wasmCtx))
    ∧ (∀ x, x < arrPtr ∨ arrPtr + 4 * Z.of_nat k ≤ x →
            byteAt (buffer (cursorView wasmCtx')) x
            = byteAt (buffer (cursorView wasmCtx)) x)
    ∧ (arrPtr mod 4 = 0 → 0 ≤ arrPtr →
       arrPtr + 4 * Z.of_nat k ≤ Z.of_nat (length (buffer (cursorView wasmCtx))) →
       ∀ j c, take k visible !! j = Some c →
              U32Heap_load (buffer (cursorView wasmCtx')) arrPtr (Z.of_nat j)
              = Some (c mod 4294967296)).
Proof.
  intros Hchain Hfuel visible k.
  assert (Htake : take (Z.to_nat maxCount) visible = take k visible).
  { unfold k.
    destruct (Nat.min_spec (Z.to_nat maxCount) (length visible))
      as [[_ ->]|[Hle ->]]; [reflexivity|].
    rewrite !take_ge; [reflexivity|lia|lia]. }
  assert (Hlen : length (take k visible) = k).
  { rewrite length_take. unfold k. lia. }
  eexists. split_and!.
  - rewrite (getScriptChildren_spec fuel wasmCtx parent _ _ children) by done.
    fold visible. rewrite Htake, Hlen. reflexivity.
  - unfold k. lia.
  - unfold k. lia.
  - unfold k. lia.
  - reflexivity.
  - reflexivity.
  - simpl. apply writeIds_length.
  - intros x Hx. simpl. apply writeIds_outside. rewrite Hlen. lia.
  - intros Hal Hlo Hhi j c Hj. simpl.
    replace (Z.of_nat j) with (0 + Z.of_nat j) by lia.
    apply writeIds_load; try done; lia.
Qed.




(** ** Upward traversal *)

(** C9. For a node that passes the capability check, node_get_parent
    returns 0 when the node has no parent and also when the parent exists
    but is not in the caller's capability set, and the parent's id
    otherwise; node_get_parent_scene does the same for the parent scene.
    Whatever the arguments, a nonzero result is an id of the caller's
    capability set. *)
Theorem node_get_parent_filtered wasmCtx nodeId node :
  getScriptNode wasmCtx nodeId = Some node →
  let ids := resourceIds (resourceManager wasmCtx) in
  (parent node = None → node_get_parent wasmCtx nodeId = 0) ∧
  (∀ p, parent node = Some p → p ∉ ids → node_get_parent wasmCtx nodeId = 0) ∧
  (∀ p, parent node = Some p → p ∈ ids → node_get_parent wasmCtx nodeId = p) ∧
  (parentScene node = None → node_get_parent_scene wasmCtx nodeId = 0) ∧
  (∀ p, parentScene node = Some p → p ∉ ids →
        node_get_parent_scene wasmCtx nodeId = 0) ∧
  (∀ p, parentScene node = Some p → p ∈ ids →
        node_get_parent_scene wasmCtx nodeId = p) ∧
  (∀ anyCtx anyId,
     let r := node_get_parent anyCtx anyId in
     let s := node_get_parent_scene anyCtx anyId in
     (r = 0 ∨ r ∈ resourceIds (resourceManager anyCtx)) ∧
     (s = 0 ∨ s ∈ resourceIds (resourceManager anyCtx))).
Proof.
  intros Hnode ids. unfold node_get_parent, node_get_parent_scene.
  rewrite Hnode. split_and!.
  - by intros ->.
  - intros p -> Hout. by rewrite decide_False.
  - intros p -> Hin. by rewrite decide_True.
  - by intros ->.
  - intros p -> Hout. by rewrite decide_False.
  - intros p -> Hin. by rewrite decide_True.
  - intros anyCtx anyId. simpl.
    destruct (getScriptNode anyCtx anyId) as [n|]; [|auto].
    split.
    + destruct (parent n) as [p|]; [|auto]. case_decide; auto.
    + destruct (parentScene n) as [p|]; [|auto]. case_decide; auto.
Qed.

(** Node 21 is owned, its parent 20 and its scene 1 are not: both calls
    answer 0. *)
Lemma node_get_parent_filtered_witness :
  node_get_parent exChildCtx 21 = 0 ∧ node_get_parent_scene exChildCtx 21 = 0.
Proof.
  destruct (node_get_parent_filtered exChildCtx 21
              (mkNode (Some 20) (Some 1) None None true) eq_refl)
    as (_ & Hp & _ & _ & Hs & _).
  split.
  - apply (Hp 20); [reflexivity|vm_compute; intros H; discriminate H].
  - apply (Hs 1); [reflexivity|vm_compute; intros H; discriminate H].
Defined.

(** ** Indexed child lookup *)

Lemma scriptGetChildAt_loop_all_visible ids m index cur l :
  sibling_chain m cur l →
  Forall (λ c, c ∈ ids) l →
  ∀ fuel i, (length l ≤ fuel)%nat → i ≤ index →
  scriptGetChildAt_loop fuel ids m index cur i
  = Some (headOf (drop (Z.to_nat (index - i)) l),
          i + Z.of_nat (Z.to_nat (index - i) `min` length l)).
Proof.
  induction 1 as [|c n l Hc Hl IH]; intros Hall fuel i Hfuel Hi.
  - destruct fuel; simpl; rewrite drop_nil; simpl; do 2 f_equal; lia.
  - destruct fuel as [|fuel]; simpl in Hfuel; [lia|]. simpl.
    apply Forall_cons in Hall as [Hin Hall].
    destruct (i <? index) eqn:Hlt.
    + apply Z.ltb_lt in Hlt.
      rewrite (deref_node _ _ _ Hc). simpl.
      rewrite decide_True by done.
      rewrite IH by (done || lia).
      replace (Z.to_nat (index - i)) with (S (Z.to_nat (index - (i + 1)))) by lia.
      simpl. do 2 f_equal. lia.
    + apply Z.ltb_ge in Hlt.
      replace (Z.to_nat (index - i)) with O by lia.
      simpl. do 2 f_equal. lia.
Qed.

(** When every child of the parent is in the caller's set, the indexed
    lookup returns the child at that position, and 0 past the end. *)
Lemma scriptGetChildAt_all_visible fuel wasmCtx parent index children :
  sibling_chain (resourceMap (resourceManager wasmCtx)) (firstOf parent) children →
  Forall (λ c, c ∈ resourceIds (resourceManager wasmCtx)) children →
  (length children ≤ fuel)%nat →
  0 ≤ index →
  scriptGetChildAt fuel wasmCtx parent index
  = Some (default 0 (children !! Z.to_nat index)).
Proof.
  intros Hchain Hall Hfuel Hindex. unfold scriptGetChildAt.
  rewrite (scriptGetChildAt_loop_all_visible _ _ index _ _ Hchain Hall) by done.
  simpl. rewrite Z.sub_0_r.
  destruct (drop (Z.to_nat index) children) as [|c rest] eqn:Hdrop; simpl.
  - apply drop_nil_inv in Hdrop.
    by rewrite lookup_ge_None_2.
  - assert (Hlook : children !! Z.to_nat index = Some c).
    { rewrite <- (Nat.add_0_r (Z.to_nat index)), <- lookup_drop, Hdrop. done. }
    rewrite Hlook. simpl.
    apply lookup_lt_Some in Hlook as Hlt.
    rewrite decide_True by lia.
    rewrite decide_True; [done|].
    eapply Forall_lookup_1 in Hall; eauto.
Qed.

(** C3 (the code departs from the specification). In the example scene the first
    child, 10, belongs to another script and the second, 11, to the caller.
    The caller's first visible child is 11 and the bulk listing reports it,
    yet the indexed lookup at index 0 answers 0: the loop stops on the
    foreign child instead of skipping over it. Index 2 fails the same way
    (the third visible child is 14). *)
Theorem scene_get_node_stops_at_foreign_child :
  visibleChildren (resourceIds (resourceManager exSceneCtx)) [10; 11; 12; 13; 14]
    = [11; 12; 14]
  ∧ scene_get_node_count 5 exSceneCtx 1 = Some 3
  ∧ scene_get_node 5 exSceneCtx 1 0 = Some 0
  ∧ scene_get_node 5 exSceneCtx 1 1 = Some 12
  ∧ scene_get_node 5 exSceneCtx 1 2 = Some 0.
Proof. vm_compute. repeat split. Qed.

(** ** Fail-closed accessors *)

Lemma node_set_visible_unauthorized wasmCtx nodeId visible :
  nodeId ∉ resourceIds (resourceManager wasmCtx) →
  node_set_visible wasmCtx nodeId visible = (-1, wasmCtx).
Proof.
  intros H. unfold node_set_visible. by rewrite getScriptNode_unauthorized.
Qed.

Lemma node_set_visible_owner wasmCtx nodeId v node :
  getScriptNode wasmCtx nodeId = Some node →
  let r := node_set_visible wasmCtx nodeId v in
  r.1 = 0 ∧
  getScriptNode r.2 nodeId = Some (setVisible node (truthy v)) ∧
  resourceIds (resourceManager r.2) = resourceIds (resourceManager wasmCtx) ∧
  ∀ other, other ≠ nodeId →
    resourceMap (resourceManager r.2) !! other
    = resourceMap (resourceManager wasmCtx) !! other.
Proof.
  intros Hnode. unfold node_set_visible. rewrite Hnode. simpl.
  apply getScriptNode_Some in Hnode as [Hin Hget].
  split_and!; [done| |done|].
  - apply getScriptNode_Some. simpl. split; [done|]. by rewrite lookup_insert_eq.
  - intros other Hne. by rewrite lookup_insert_ne.
Qed.

(** The scenario of the specification: script A owns node 7, script B does
    not. B's call answers -1 and changes nothing; A's call answers 0 and the
    node becomes visible. *)
Lemma node_set_visible_scenario :
  node_set_visible exScriptB 7 1 = (-1, exScriptB)
  ∧ (node_set_visible exScriptA 7 1).1 = 0
  ∧ getScriptNode (node_set_visible exScriptA 7 1).2 7
    = Some (mkNode None None None None true).
Proof. vm_compute. repeat split. Qed.

(** Every modelled call that takes the id as an argument fails closed. *)
Lemma unauthorized_calls_fail_closed readFloat32ArrayInto fuel wasmCtx id a b :
  id ∉ resourceIds (resourceManager wasmCtx) →
  node_get_visible wasmCtx id = 0
  ∧ node_set_visible wasmCtx id a = (-1, wasmCtx)
  ∧ node_get_parent wasmCtx id = 0
  ∧ node_get_parent_scene wasmCtx id = 0
  ∧ node_get_child_count fuel wasmCtx id = Some (-1)
  ∧ node_get_children fuel wasmCtx id a b = Some (-1, wasmCtx)
  ∧ node_get_child fuel wasmCtx id a = Some 0
  ∧ scene_get_node_count fuel wasmCtx id = Some (-1)
  ∧ scene_get_nodes fuel wasmCtx id a b = Some (-1, wasmCtx)
  ∧ scene_get_node fuel wasmCtx id a = Some 0
  ∧ ui_text_set_color readFloat32ArrayInto id a wasmCtx = (Value (-1), wasmCtx).
Proof.
  intros Hout.
  unfold node_get_visible, node_set_visible, node_get_parent,
    node_get_parent_scene, node_get_child_count, node_get_children,
    node_get_child, scene_get_node_count, scene_get_nodes, scene_get_node,
    ui_text_set_color, call, getScriptNode, getScriptScene, getScriptUIText.
  rewrite !getScriptResource_unauthorized by done. simpl. repeat split.
Qed.

(** C1 (the code departs from the specification). Script B does not own mesh 7.
    Its create_collider call names mesh 7 in the parameter block; the id
    fails the capability check, yet the call does not answer the error
    value: it registers collider 8 (without a mesh), adds it to B's set and
    answers 8. *)
Theorem create_collider_ignores_unresolved_mesh :
  let r := create_collider allocateResource exColliderType 0 exColliderCtx in
  (7 ∉ resourceIds (resourceManager exColliderCtx))
  ∧ getScriptResource exColliderCtx ResourceType.Mesh 7 = None
  ∧ r.1 = Value 8
  ∧ resourceMap (resourceManager exColliderCtx) !! 8 = None
  ∧ resourceMap (resourceManager r.2) !! 8
    = Some (RCollider (mkCollider 0 false [0; 0; 0] 0 0 None))
  ∧ 8 ∈ resourceIds (resourceManager r.2).
Proof.
  vm_compute. split_and!; try reflexivity.
  - intros H. discriminate H.
Qed.

(** ** Decoding allocates nothing *)

Lemma bind_unfold {A B} (m : Script A) (k : A → Script B) wasmCtx :
  (m ≫= k) wasmCtx
  = match m wasmCtx with
    | (Continue a, wasmCtx') => k a wasmCtx'
    | (Return z, wasmCtx') => (Return z, wasmCtx')
    | (Throw, wasmCtx') => (Throw, wasmCtx')
    end.
Proof. reflexivity. Qed.

Section Decoders.
Context (ok : Z → Prop).

Lemma decoder_ret {A} (a : A) : decoder ok (mret a : Script A).
Proof. intros wasmCtx. split; [reflexivity|discriminate]. Qed.

Lemma decoder_bind {A B} (m : Script A) (k : A → Script B) :
  decoder ok m → (∀ a, decoder ok (k a)) → decoder ok (m ≫= k).
Proof.
  intros Hm Hk wasmCtx. rewrite bind_unfold.
  destruct (Hm wasmCtx) as [Hrm Hret].
  destruct (m wasmCtx) as [[a|z|] wasmCtx1]; simpl in *.
  - destruct (Hk a wasmCtx1) as [Hrm' Hret']. split; [congruence|done].
  - split; [done|]. intros z' [= <-]. by apply Hret.
  - split; [done|discriminate].
Qed.

Lemma decoder_moveCursorView offset : decoder ok (moveCursorView offset).
Proof. intros wasmCtx. split; [reflexivity|discriminate]. Qed.

Lemma decoder_readUint32 : decoder ok readUint32.
Proof.
  intros wasmCtx. unfold readUint32.
  destruct (getUint32 _ _); split; try reflexivity; discriminate.
Qed.

Lemma decoder_skipUint32 : decoder ok skipUint32.
Proof. intros wasmCtx. split; [reflexivity|discriminate]. Qed.

Lemma decoder_readString ptr byteLength : decoder ok (readString ptr byteLength).
Proof. intros wasmCtx. split; [reflexivity|discriminate]. Qed.

Lemma decoder_resolve expected id : decoder ok (resolve expected id).
Proof. intros wasmCtx. split; [reflexivity|discriminate]. Qed.

Lemma decoder_forLoop {T} n (body : Z → T → Script T) :
  (∀ i acc, decoder ok (body i acc)) → ∀ i acc, decoder ok (forLoop n i body acc).
Proof.
  intros Hbody. induction n as [|n IH]; intros i acc; simpl.
  - apply decoder_ret.
  - apply decoder_bind; [apply Hbody|]. intros acc'. apply IH.
Qed.

Lemma decoder_readUint32Array n : decoder ok (readUint32Array n).
Proof.
  induction n as [|n IH]; simpl; [apply decoder_ret|].
  apply decoder_bind; [apply decoder_readUint32|]. intros x.
  apply decoder_bind; [apply IH|]. intros xs. apply decoder_ret.
Qed.

End Decoders.

Lemma decoder_return {A} : decoder failure (return_ (-1) : Script A).
Proof. intros wasmCtx. split; [reflexivity|]. by intros z [= <-]. Qed.

Create HintDb decoders.
#[local] Hint Resolve decoder_ret decoder_return decoder_moveCursorView
  decoder_readUint32 decoder_skipUint32 decoder_readString decoder_resolve
  decoder_readUint32Array
  : decoders.

Ltac decode :=
  repeat first
    [ apply decoder_bind; [|intros ?]
    | apply decoder_forLoop; intros ? ?
    | progress auto with decoders
    | match goal with
      | |- decoder _ (if ?b then _ else _) => destruct b
      | |- decoder _ (match ?x with _ => _ end) => destruct x
      end ].

Lemma decoder_readStringFromCursorView ok : decoder ok readStringFromCursorView.
Proof. unfold readStringFromCursorView. decode. Qed.

Lemma decoder_readMeshHeader propsPtr : decoder failure (readMeshHeader propsPtr).
Proof. unfold readMeshHeader. decode. Qed.

Lemma decoder_readCheckedRef expected : decoder failure (readCheckedRef expected).
Proof. unfold readCheckedRef. decode. Qed.

Lemma decoder_readAttribute Attr attributesPtr attributeIndex attributes :
  decoder failure (readAttribute Attr attributesPtr attributeIndex attributes).
Proof. unfold readAttribute. decode. Qed.

Lemma decoder_readPrimitive Mode Attr primitivesPtr primitiveIndex primitiveProps :
  decoder failure (readPrimitive Mode Attr primitivesPtr primitiveIndex primitiveProps).
Proof.
  unfold readPrimitive. decode;
    first [apply decoder_readAttribute | apply decoder_readCheckedRef].
Qed.

Lemma decoder_parsePrimitives Mode Attr primitivesPtr primitivesCount :
  decoder failure (parsePrimitives Mode Attr primitivesPtr primitivesCount).
Proof.
  unfold parsePrimitives. apply decoder_forLoop. intros i acc.
  apply decoder_readPrimitive.
Qed.

(** A loop whose body stops at turn [k] stops there with the same outcome. *)
Lemma forLoop_stops {T} (body : Z → T → Script T) k :
  ∀ n i acc wasmCtx accK ctxK out wasmCtx',
  (k < n)%nat →
  forLoop k i body acc wasmCtx = (Continue accK, ctxK) →
  body (i + Z.of_nat k) accK ctxK = (out, wasmCtx') →
  (∀ v, out ≠ Continue v) →
  forLoop n i body acc wasmCtx = (out, wasmCtx').
Proof.
  induction k as [|k IH]; intros n i acc wasmCtx accK ctxK out wasmCtx' Hlt Hrun Hbody Hout.
  - destruct n as [|n]; [lia|]. simpl in *. injection Hrun as <- <-.
    rewrite bind_unfold. rewrite Z.add_0_r in Hbody. rewrite Hbody.
    destruct out as [v| |]; [by destruct (Hout v)|done|done].
  - destruct n as [|n]; [lia|]. simpl in *.
    rewrite bind_unfold in Hrun |- *.
    destruct (body i acc wasmCtx) as [[a|z|] wasmCtx1]; try discriminate.
    apply (IH n (i + 1) a wasmCtx1 accK ctxK); [lia|done| |done].
    by replace (i + 1 + Z.of_nat k) with (i + Z.of_nat (S k)) by lia.
Qed.

(** ** Mesh construction *)



(** When both primitives are valid the call constructs two primitives (ids
    1 and 2) and the mesh (id 3), and answers the mesh id. *)
Lemma world_create_mesh_valid_example :
  let r := world_create_mesh allocateResource exMeshPrimitiveMode
             exMeshPrimitiveAttributeIndex 0 exMeshOkCtx in
  r.1 = Value 3
  ∧ resourceMap (resourceManager r.2) !! 3 = Some (RMesh (mkMesh [] [1; 2]))
  ∧ size (resourceMap (resourceManager r.2)) = 3%nat.
Proof. vm_compute. repeat split. Qed.

(** ** Error values of the constructors *)

Lemma create_light_invalid_type construct LightType type wasmCtx :
  LightType type = false →
  create_light construct LightType type wasmCtx = (Value (-1), wasmCtx).
Proof. intros H. unfold create_light, call. by rewrite H. Qed.

Lemma create_ui_canvas_constructor_throws construct propsPtr wasmCtx size width height ctx1 :
  (moveCursorView propsPtr;;
   size ← readFloat32Array 2;
   width ← readFloat32;
   height ← readFloat32;
   mret (size, width, height)) wasmCtx = (Continue (size, width, height), ctx1) →
  construct (resourceManager ctx1) (RUICanvas (mkUICanvas size width height)) = None →
  create_ui_canvas construct propsPtr wasmCtx = (Value (-1), ctx1).
Proof.
  intros Hread Hthrow. unfold create_ui_canvas, call.
  rewrite bind_unfold in Hread. rewrite bind_unfold.
  destruct (moveCursorView propsPtr wasmCtx) as [[[]|z|] c0]; try discriminate.
  rewrite bind_unfold in Hread. rewrite bind_unfold.
  destruct (readFloat32Array 2 c0) as [[s|z|] c1]; try discriminate.
  rewrite bind_unfold in Hread. rewrite bind_unfold.
  destruct (readFloat32 c1) as [[w|z|] c2]; try discriminate.
  rewrite bind_unfold in Hread. rewrite bind_unfold.
  destruct (readFloat32 c2) as [[h|z|] c3]; try discriminate.
  injection Hread as -> -> -> ->.
  unfold tryCatch. rewrite bind_unfold. unfold new. by rewrite Hthrow.
Qed.

(** C5 (the code departs from the specification). Three calls whose successful
    result is a resource id answer -1, not 0, on failure: create_light on
    the unknown light type 99, world_create_mesh on a primitive with the
    unknown mode 99, and create_ui_canvas when the canvas constructor
    throws. *)
Theorem id_returning_calls_answer_minus_one :
  create_light allocateResource exLightType 99 exMeshCtx = (Value (-1), exMeshCtx)
  ∧ (world_create_mesh allocateResource exMeshPrimitiveMode
       exMeshPrimitiveAttributeIndex 0 exMeshCtx).1 = Value (-1)
  ∧ (create_ui_canvas failingConstructor 0 exMaterialCtx).1 = Value (-1).
Proof. vm_compute. repeat split. Qed.

(** ** Material construction *)

#[local] Hint Resolve decoder_readStringFromCursorView : decoders.

Lemma decoder_readExtensions parseExtension :
  (∀ name, decoder never (parseExtension name)) →
  decoder never (readExtensions parseExtension).
Proof. intros Hparse. unfold readExtensions. decode. Qed.

Lemma decoder_readOptionalRef expected : decoder never (readOptionalRef expected).
Proof. unfold readOptionalRef. decode. Qed.

#[local] Hint Resolve decoder_readExtensions decoder_readOptionalRef : decoders.

Lemma decoder_readTextureInfoExtensions : decoder never readTextureInfoExtensions.
Proof.
  unfold readTextureInfoExtensions. apply decoder_readExtensions. intros name.
  unfold readFloat32Array, readFloat32. case_decide; decode.
Qed.

Lemma decoder_skipExtras ok : decoder ok skipExtras.
Proof. unfold skipExtras. decode. Qed.

#[local] Hint Resolve decoder_readTextureInfoExtensions decoder_skipExtras
  : decoders.

Lemma throws_throw {A} : throws (throw : Script A).
Proof. intros wasmCtx. split; reflexivity. Qed.

(** The statements after one that throws do not matter. *)
Lemma throws_bind_l {A B} (m : Script A) (k : A → Script B) :
  throws m → throws (m ≫= k).
Proof.
  intros Hm wasmCtx. rewrite bind_unfold.
  destruct (Hm wasmCtx) as [Hthrow Hrm].
  destruct (m wasmCtx) as [[a|z|] wasmCtx1]; simpl in *; try discriminate.
  split; [reflexivity|exact Hrm].
Qed.

(** Reads in front of a statement that throws either throw themselves or
    lead to it. *)
Lemma throws_bind_r {A B} (m : Script A) (k : A → Script B) :
  decoder never m → (∀ a, throws (k a)) → throws (m ≫= k).
Proof.
  intros Hm Hk wasmCtx. rewrite bind_unfold.
  destruct (Hm wasmCtx) as [Hrm Hret].
  destruct (m wasmCtx) as [[a|z|] wasmCtx1]; simpl in *.
  - destruct (Hk a wasmCtx1) as [Hthrow Hrm']. split; [done|congruence].
  - destruct (Hret z eq_refl).
  - split; [reflexivity|exact Hrm].
Qed.

Lemma readTextureInfo_throws : throws readTextureInfo.
Proof.
  unfold readTextureInfo, readTextureRef.
  repeat (apply throws_bind_r; [solve [auto with decoders]|intros ?]).
  apply throws_throw.
Qed.

Lemma readMaterialProps_throws propsPtr : throws (readMaterialProps propsPtr).
Proof.
  unfold readMaterialProps, readFloat32Array.
  do 2 (apply throws_bind_r; [solve [auto with decoders]|intros ?]).
  apply throws_bind_l, readTextureInfo_throws.
Qed.

(** C2 (the code departs from the specification). The parameter block holds
    99 in its alphaMode field (byte 164) and zeros elsewhere.
    world_create_material does not answer 0: the call ends in an exception
    that leaves the handler. The exception is raised by the first
    readTextureInfo, with the cursor at byte 40, long before the alphaMode
    field is read, and the handler has no try block around it. No material
    is registered: the resource manager is the one before the call. *)
Theorem world_create_material_throws_on_unknown_alphaMode :
  let r := world_create_material allocateResource 0 exMaterialCtx in
  getUint32 exMaterialMemory 164 = Some 99
  ∧ r.1 = Exception
  ∧ r.1 ≠ Value 0
  ∧ cursor (cursorView r.2) = 40
  ∧ resourceManager r.2 = resourceManager exMaterialCtx
  ∧ size (resourceMap (resourceManager r.2)) = 0%nat.
Proof. vm_compute. split_and!; try reflexivity. discriminate. Qed.

(** ** UI text colour *)

Lemma ui_text_set_color_returns_nothing readFloat32ArrayInto textId colorPtr wasmCtx flex :
  getScriptUIText wasmCtx textId = Some flex →
  ui_text_set_color readFloat32ArrayInto textId colorPtr wasmCtx
  = (Undefined,
     setColor wasmCtx textId
       (readFloat32ArrayInto (buffer (cursorView wasmCtx)) colorPtr (color flex))).
Proof. intros H. unfold ui_text_set_color, call. by rewrite H. Qed.

(** C8 (the code departs from the specification). The caller owns UI text 5 and
    passes a colour: the colour is stored, but the handler ends without a
    return statement, so the call yields no value instead of status 0. *)
Theorem ui_text_set_color_yields_no_status :
  let r := ui_text_set_color copyFloat32 5 0 exTextCtx in
  getScriptResource exTextCtx ResourceType.UIText 5 = Some (RUIText (mkUIText [0; 0; 0; 0]))
  ∧ r.1 = Undefined
  ∧ r.1 ≠ Value 0
  ∧ resourceMap (resourceManager r.2) !! 5 = Some (RUIText (mkUIText [1; 2; 3; 4])).
Proof.
  vm_compute. split_and!; try reflexivity.
  intros H. discriminate H.
Qed.

(** * Further properties *)

(** ** Indexed lookup: what it answers is right *)

Lemma scriptGetChildAt_loop_total ids m index cur l :
  sibling_chain m cur l →
  ∀ fuel i, (length l ≤ fuel)%nat →
  is_Some (scriptGetChildAt_loop fuel ids m index cur i).
Proof.
  induction 1 as [|c n l Hc Hl IH]; intros fuel i Hfuel.
  - destruct fuel; simpl; eauto.
  - destruct fuel as [|fuel]; simpl in Hfuel; [lia|]. simpl.
    destruct (i <? index); [|eauto].
    rewrite (deref_node _ _ _ Hc). simpl. apply IH. lia.
Qed.

Lemma scriptGetChildAt_loop_prefix ids m index cur l :
  sibling_chain m cur l →
  ∀ fuel i cur' i',
  scriptGetChildAt_loop fuel ids m index cur i = Some (cur', i') →
  ∃ pre suf, l = pre ++ suf ∧ headOf suf = cur'
             ∧ i' = i + Z.of_nat (length (visibleChildren ids pre)).
Proof.
  induction 1 as [|c n l Hc Hl IH]; intros fuel i cur' i' Hrun.
  - exists [], []. destruct fuel; simpl in Hrun; injection Hrun as <- <-;
      (split_and!; [done|done|simpl; lia]).
  - assert (Hstop : Some (Some c, i) = Some (cur', i') →
              ∃ pre suf, c :: l = pre ++ suf ∧ headOf suf = cur'
                ∧ i' = i + Z.of_nat (length (visibleChildren ids pre))).
    { intros [= <- <-]. exists [], (c :: l). split_and!; [done|done|simpl; lia]. }
    destruct fuel as [|fuel]; simpl in Hrun;
      destruct (i <? index); try discriminate; try (by apply Hstop).
    rewrite (deref_node _ _ _ Hc) in Hrun. simpl in Hrun.
    apply IH in Hrun as (pre & suf & -> & Hhead & ->).
    exists (c :: pre), suf. split_and!; [done|done|].
    destruct (decide (c ∈ ids)) as [Hin|Hout].
    + rewrite visibleChildren_cons_in by done. simpl length. lia.
    + rewrite visibleChildren_cons_out by done. lia.
Qed.

(** X1. The indexed child lookup always answers (given fuel for the
    chain), and a nonzero answer is exactly the child at that index among
    the children the caller can see; for a negative index, or an index at or
    beyond the number of visible children, the answer is 0. *)
Theorem scriptGetChildAt_sound fuel wasmCtx parent index children :
  sibling_chain (resourceMap (resourceManager wasmCtx)) (firstOf parent) children →
  (length children ≤ fuel)%nat →
  let visible := visibleChildren (resourceIds (resourceManager wasmCtx)) children in
  ∃ r, scriptGetChildAt fuel wasmCtx parent index = Some r
       ∧ (r ≠ 0 → 0 ≤ index ∧ visible !! Z.to_nat index = Some r)
       ∧ (index < 0 ∨ Z.of_nat (length visible) ≤ index → r = 0).
Proof.
  intros Hchain Hfuel visible.
  assert (Hsound : ∀ r, scriptGetChildAt fuel wasmCtx parent index = Some r →
            r ≠ 0 → 0 ≤ index ∧ visible !! Z.to_nat index = Some r).
  { intros r Hr Hnz. unfold scriptGetChildAt in Hr.
    destruct (scriptGetChildAt_loop _ _ _ _ _ _) as [[cur i]|] eqn:Hloop;
      simpl in Hr; [|discriminate].
    apply (scriptGetChildAt_loop_prefix _ _ _ _ _ Hchain) in Hloop
      as (pre & suf & Hl & Hhead & Hi).
    destruct cur as [c|]; [|by injection Hr as <-].
    destruct (decide (i = index)) as [->|]; [|by injection Hr as <-].
    destruct (decide (c ∈ _)) as [Hin|]; [|by injection Hr as <-].
    injection Hr as <-.
    destruct suf as [|c' suf]; simpl in Hhead; [discriminate|].
    injection Hhead as ->. split; [lia|].
    unfold visible. rewrite Hl. unfold visibleChildren.
    rewrite filter_app, filter_cons_True by done.
    replace (Z.to_nat index) with
      (length (filter (λ c0, c0 ∈ resourceIds (resourceManager wasmCtx)) pre) + 0)%nat
      by (unfold visibleChildren in Hi; lia).
    by rewrite lookup_app_r, Nat.add_comm, Nat.add_sub by lia. }
  destruct (scriptGetChildAt_loop_total (resourceIds (resourceManager wasmCtx))
              _ index _ _ Hchain fuel 0 Hfuel) as [[cur i] Hloop].
  assert (∃ r, scriptGetChildAt fuel wasmCtx parent index = Some r) as [r Hr].
  { unfold scriptGetChildAt. rewrite Hloop. simpl.
    destruct cur; repeat case_decide; eauto. }
  exists r. split_and!; [done|by apply Hsound|].
  intros Hrange. destruct (decide (r = 0)) as [|Hnz]; [done|].
  destruct (Hsound r Hr Hnz) as [Hpos Hlook].
  apply lookup_lt_Some in Hlook. lia.
Qed.

Lemma scriptGetChildAt_sound_witness :
  ∃ r, scriptGetChildAt 5 exSceneCtx (IsScene (mkScene (Some 10))) 1 = Some r
       ∧ (r ≠ 0 → 0 ≤ 1 ∧ [11; 12; 14] !! Z.to_nat 1 = Some r)
       ∧ (1 < 0 ∨ Z.of_nat (length [11; 12; 14]) ≤ 1 → r = 0).
Proof.
  exact (scriptGetChildAt_sound 5 exSceneCtx (IsScene (mkScene (Some 10))) 1
           [10; 11; 12; 13; 14] exScene_chain (le_n 5)).
Defined.

(** ** Child count of a node, and how listing and counting agree *)

(** X2. For a node that passes the capability check, node_get_child_count
    returns the number of its children that are in the caller's capability
    set. *)
Theorem node_get_child_count_visible fuel wasmCtx nodeId node children :
  getScriptNode wasmCtx nodeId = Some node →
  sibling_chain (resourceMap (resourceManager wasmCtx)) (firstChild node) children →
  (length children ≤ fuel)%nat →
  node_get_child_count fuel wasmCtx nodeId
  = Some (Z.of_nat (length
      (visibleChildren (resourceIds (resourceManager wasmCtx)) children))).
Proof.
  intros Hnode Hchain Hfuel.
  unfold node_get_child_count, getScriptChildCount. rewrite Hnode. simpl.
  by rewrite (getScriptChildCount_loop_spec _ _ _ _ Hchain).
Qed.

Lemma node_get_child_count_visible_witness :
  node_get_child_count 3 exFamilyCtx 30 = Some 2.
Proof.
  exact (node_get_child_count_visible 3 exFamilyCtx 30
           (mkNode None None (Some 31) None true) [31; 32; 33]
           eq_refl exFamily_chain (le_n 3)).
Defined.

(** X3. The bulk listing and the count agree: for an authorized node the
    listing returns at most the number node_get_child_count reports, exactly
    that number when maxCount is at least as large, and 0 when maxCount is
    not positive; the listing leaves the resource manager and the cursor
    position alone. *)
Theorem node_get_children_agrees_with_count fuel wasmCtx nodeId node
    childArrPtr maxCount children :
  getScriptNode wasmCtx nodeId = Some node →
  sibling_chain (resourceMap (resourceManager wasmCtx)) (firstChild node) children →
  (length children ≤ fuel)%nat →
  ∃ n k wasmCtx',
    node_get_child_count fuel wasmCtx nodeId = Some n
    ∧ node_get_children fuel wasmCtx nodeId childArrPtr maxCount = Some (k, wasmCtx')
    ∧ 0 ≤ k ≤ n
    ∧ (n ≤ maxCount → k = n)
    ∧ (maxCount ≤ 0 → k = 0)
    ∧ resourceManager wasmCtx' = resourceManager wasmCtx
    ∧ cursor (cursorView wasmCtx') = cursor (cursorView wasmCtx).
Proof.
  intros Hnode Hchain Hfuel.
  set (visible := visibleChildren (resourceIds (resourceManager wasmCtx)) children).
  exists (Z.of_nat (length visible)),
         (Z.of_nat (length (take (Z.to_nat maxCount) visible))).
  eexists. split_and!.
  - unfold node_get_child_count, getScriptChildCount. rewrite Hnode. simpl.
    by rewrite (getScriptChildCount_loop_spec _ _ _ _ Hchain).
  - unfold node_get_children. rewrite Hnode.
    by rewrite (getScriptChildren_spec fuel wasmCtx (IsNode node) _ _ children).
  - lia.
  - rewrite length_take. lia.
  - intros Hn. rewrite take_ge; [done|lia].
  - intros Hm. replace (Z.to_nat maxCount) with O by lia. by rewrite take_0.
  - reflexivity.
  - reflexivity.
Qed.

Lemma node_get_children_agrees_with_count_witness :
  ∃ n k wasmCtx',
    node_get_child_count 3 exFamilyCtx 30 = Some n
    ∧ node_get_children 3 exFamilyCtx 30 0 1 = Some (k, wasmCtx')
    ∧ 0 ≤ k ≤ n
    ∧ (n ≤ 1 → k = n)
    ∧ (1 ≤ 0 → k = 0)
    ∧ resourceManager wasmCtx' = resourceManager exFamilyCtx
    ∧ cursor (cursorView wasmCtx') = cursor (cursorView exFamilyCtx).
Proof.
  exact (node_get_children_agrees_with_count 3 exFamilyCtx 30
           (mkNode None None (Some 31) None true) 0 1 [31; 32; 33]
           eq_refl exFamily_chain (le_n 3)).
Defined.

(** ** The listing stays inside its array *)



(** ** Typed access *)

Lemma getScriptMaterial_Some wasmCtx id m :
  getScriptMaterial wasmCtx id = Some m ↔
  id ∈ resourceIds (resourceManager wasmCtx) ∧
  resourceMap (resourceManager wasmCtx) !! id = Some (RMaterial m).
Proof.
  unfold getScriptMaterial. split.
  - intros H. apply bind_Some in H as (r & Hr & Hn).
    apply getScriptResource_Some in Hr as (? & ? & ?).
    destruct r; simplify_eq/=. auto.
  - intros [Hin Hget]. apply bind_Some. exists (RMaterial m). split; [|done].
    apply getScriptResource_Some. auto.
Qed.

Lemma getScriptMesh_Some wasmCtx id m :
  getScriptMesh wasmCtx id = Some m ↔
  id ∈ resourceIds (resourceManager wasmCtx) ∧
  resourceMap (resourceManager wasmCtx) !! id = Some (RMesh m).
Proof.
  unfold getScriptMesh. split.
  - intros H. apply bind_Some in H as (r & Hr & Hn).
    apply getScriptResource_Some in Hr as (? & ? & ?).
    destruct r; simplify_eq/=. auto.
  - intros [Hin Hget]. apply bind_Some. exists (RMesh m). split; [|done].
    apply getScriptResource_Some. auto.
Qed.

Lemma getScriptUICanvas_Some wasmCtx id c :
  getScriptUICanvas wasmCtx id = Some c ↔
  id ∈ resourceIds (resourceManager wasmCtx) ∧
  resourceMap (resourceManager wasmCtx) !! id = Some (RUICanvas c).
Proof.
  unfold getScriptUICanvas. split.
  - intros H. apply bind_Some in H as (r & Hr & Hn).
    apply getScriptResource_Some in Hr as (? & ? & ?).
    destruct r; simplify_eq/=. auto.
  - intros [Hin Hget]. apply bind_Some. exists (RUICanvas c). split; [|done].
    apply getScriptResource_Some. auto.
Qed.

(** Updating one registry entry leaves the capability check of every
    other id as it was. *)
Lemma getScriptResource_update_other wasmCtx key r expected id :
  id ≠ key →
  getScriptResource
    (withResourceMap wasmCtx (<[key := r]> (resourceMap (resourceManager wasmCtx))))
    expected id
  = getScriptResource wasmCtx expected id.
Proof.
  intros Hne. unfold getScriptResource, checkAccess. simpl.
  by rewrite lookup_insert_ne.
Qed.

(** ** Node visibility round trip *)

(** X5. After a successful node_set_visible(id, v), node_get_visible(id)
    answers 1 when v is nonzero and 0 when v is 0, and the answer for every
    other node is what it was before. *)
Theorem node_visible_round_trip wasmCtx nodeId v node :
  getScriptNode wasmCtx nodeId = Some node →
  let after := (node_set_visible wasmCtx nodeId v).2 in
  node_get_visible after nodeId = (if decide (v = 0) then 0 else 1)
  ∧ ∀ other, other ≠ nodeId →
      node_get_visible after other = node_get_visible wasmCtx other.
Proof.
  intros Hnode after. unfold after, node_set_visible. rewrite Hnode. simpl.
  apply getScriptNode_Some in Hnode as [Hin Hget]. split.
  - unfold node_get_visible.
    assert (getScriptNode
              (withResourceMap wasmCtx
                 (<[nodeId := RNode (setVisible node (truthy v))]>
                    (resourceMap (resourceManager wasmCtx)))) nodeId
            = Some (setVisible node (truthy v))) as ->.
    { apply getScriptNode_Some. simpl. split; [done|]. by rewrite lookup_insert_eq. }
    simpl. unfold truthy. destruct (Z.eqb_spec v 0); case_decide; simpl; done.
  - intros other Hne. unfold node_get_visible, getScriptNode.
    by rewrite getScriptResource_update_other.
Qed.

Lemma node_visible_round_trip_witness :
  node_get_visible (node_set_visible exScriptA 7 1).2 7 = 1
  ∧ ∀ other, other ≠ 7 →
      node_get_visible (node_set_visible exScriptA 7 1).2 other
      = node_get_visible exScriptA other.
Proof.
  exact (node_visible_round_trip exScriptA 7 1
           (mkNode None None None None false) eq_refl).
Defined.

(** ** Material base colour texture *)

(** X6. material_get_base_color_texture never reveals an id outside the
    caller's capability set: the answer is 0 or an id of the set; in
    particular it is 0 when the material's texture belongs to another
    script, and 0 for a material the caller does not own. *)
Theorem material_get_base_color_texture_filtered wasmCtx materialId :
  let ids := resourceIds (resourceManager wasmCtx) in
  let r := material_get_base_color_texture wasmCtx materialId in
  (r = 0 ∨ r ∈ ids)
  ∧ (materialId ∉ ids → r = 0)
  ∧ (∀ m t, getScriptMaterial wasmCtx materialId = Some m →
            baseColorTexture m = Some t → t ∉ ids → r = 0)
  ∧ (∀ m t, getScriptMaterial wasmCtx materialId = Some m →
            baseColorTexture m = Some t → t ∈ ids → r = t).
Proof.
  intros ids r. unfold r, material_get_base_color_texture, getScriptResourceRef.
  split_and!.
  - destruct (getScriptMaterial wasmCtx materialId) as [m|]; [|auto].
    destruct (baseColorTexture m) as [t|]; [|auto]. case_decide; auto.
  - intros Hout. unfold getScriptMaterial.
    by rewrite getScriptResource_unauthorized.
  - intros m t -> -> Hout. by rewrite decide_False.
  - intros m t -> -> Hin. by rewrite decide_True.
Qed.

(** X7. A successful material_set_base_color_texture(material, texture)
    returns 0, after which material_get_base_color_texture(material)
    returns that texture id; the capability set, and every other resource
    of the registry, are unchanged. *)
Theorem material_base_color_texture_round_trip wasmCtx materialId textureId m :
  getScriptMaterial wasmCtx materialId = Some m →
  is_Some (getScriptResource wasmCtx ResourceType.Texture textureId) →
  let r := material_set_base_color_texture wasmCtx materialId textureId in
  r.1 = 0
  ∧ material_get_base_color_texture r.2 materialId = textureId
  ∧ resourceIds (resourceManager r.2) = resourceIds (resourceManager wasmCtx)
  ∧ ∀ other, other ≠ materialId →
      resourceMap (resourceManager r.2) !! other
      = resourceMap (resourceManager wasmCtx) !! other.
Proof.
  intros Hm [tex Htex] r. unfold r, material_set_base_color_texture.
  rewrite Hm, Htex. simpl.
  apply getScriptMaterial_Some in Hm as [Hin Hget].
  apply getScriptResource_Some in Htex as (Htin & _ & _).
  split_and!; [done| |done|].
  - unfold material_get_base_color_texture.
    assert (getScriptMaterial
              (withResourceMap wasmCtx
                 (<[materialId := RMaterial (setBaseColorTexture m (Some textureId))]>
                    (resourceMap (resourceManager wasmCtx)))) materialId
            = Some (setBaseColorTexture m (Some textureId))) as ->.
    { apply getScriptMaterial_Some. simpl. split; [done|].
      by rewrite lookup_insert_eq. }
    simpl. by rewrite decide_True.
  - intros other Hne. by rewrite lookup_insert_ne.
Qed.

Lemma material_base_color_texture_round_trip_witness :
  let r := material_set_base_color_texture exMaterialOwnerCtx 3 4 in
  r.1 = 0
  ∧ material_get_base_color_texture r.2 3 = 4
  ∧ resourceIds (resourceManager r.2) = resourceIds (resourceManager exMaterialOwnerCtx)
  ∧ ∀ other, other ≠ 3 →
      resourceMap (resourceManager r.2) !! other
      = resourceMap (resourceManager exMaterialOwnerCtx) !! other.
Proof.
  refine (material_base_color_texture_round_trip exMaterialOwnerCtx 3 4 _ _ _).
  - vm_compute. reflexivity.
  - vm_compute. eexists. reflexivity.
Defined.

(** X8. material_set_base_color_texture fails closed on both handles: when
    the material or the texture does not pass the capability check (not in
    the set, not registered, or of another type), it returns -1 and the
    module context is exactly what it was. *)
Theorem material_set_base_color_texture_fails_closed wasmCtx materialId textureId :
  getScriptResource wasmCtx ResourceType.Material materialId = None
  ∨ getScriptResource wasmCtx ResourceType.Texture textureId = None →
  material_set_base_color_texture wasmCtx materialId textureId = (-1, wasmCtx).
Proof.
  intros [Hm|Ht]; unfold material_set_base_color_texture, getScriptMaterial.
  - by rewrite Hm.
  - destruct (getScriptResource wasmCtx ResourceType.Material materialId ≫= asMaterial);
      [by rewrite Ht|done].
Qed.

(** Script owns material 3; texture 9 is registered but foreign. *)
Lemma material_set_base_color_texture_fails_closed_witness :
  material_set_base_color_texture exMaterialOwnerCtx 3 9 = (-1, exMaterialOwnerCtx).
Proof.
  apply material_set_base_color_texture_fails_closed.
  right. vm_compute. reflexivity.
Defined.

(** ** Mesh primitives *)

Lemma primitiveAt_Some wasmCtx meshId index p props :
  primitiveAt wasmCtx meshId index = Some (p, props) ↔
  ∃ m, getScriptMesh wasmCtx meshId = Some m
       ∧ 0 ≤ index
       ∧ primitives m !! Z.to_nat index = Some p
       ∧ resourceMap (resourceManager wasmCtx) !! p = Some (RMeshPrimitive props).
Proof.
  unfold primitiveAt. split.
  - intros H.
    destruct (getScriptMesh wasmCtx meshId) as [m|]; simpl in H; [|done].
    case_decide as Hpos; simpl in H; [|done].
    destruct (primitives m !! Z.to_nat index) as [p'|] eqn:Hidx; simpl in H; [|done].
    destruct (resourceMap _ !! p') as [[]|] eqn:Hp; simpl in H; try done.
    injection H as <- <-. exists m. auto.
  - intros (m & -> & Hpos & Hidx & Hp). simpl.
    rewrite decide_True by done. rewrite Hidx. simpl. by rewrite Hp.
Qed.

(** X9. A primitive index that is negative or not below the primitive
    count, or a mesh that fails the capability check, is answered without
    touching anything: the four primitive getters return 0 and
    mesh_set_primitive_material returns -1 with the context unchanged. *)
Theorem mesh_primitive_index_out_of_range wasmCtx meshId index attribute materialId :
  (∀ m, getScriptMesh wasmCtx meshId = Some m →
        index < 0 ∨ Z.of_nat (length (primitives m)) ≤ index) →
  mesh_get_primitive_attribute wasmCtx meshId index attribute = 0
  ∧ mesh_get_primitive_indices wasmCtx meshId index = 0
  ∧ mesh_get_primitive_material wasmCtx meshId index = 0
  ∧ mesh_get_primitive_mode wasmCtx meshId index = 0
  ∧ mesh_set_primitive_material wasmCtx meshId index materialId = (-1, wasmCtx).
Proof.
  intros Hrange.
  assert (Hnone : primitiveAt wasmCtx meshId index = None).
  { destruct (primitiveAt wasmCtx meshId index) as [[p props]|] eqn:Hp; [|done].
    apply primitiveAt_Some in Hp as (m & Hm & Hpos & Hidx & _).
    apply lookup_lt_Some in Hidx. destruct (Hrange m Hm); lia. }
  unfold mesh_get_primitive_attribute, mesh_get_primitive_indices,
    mesh_get_primitive_material, mesh_get_primitive_mode,
    mesh_set_primitive_material.
  by rewrite Hnone.
Qed.

(** Mesh 3 has two primitives: index 2 is out of range. *)
Lemma mesh_primitive_index_out_of_range_witness :
  mesh_get_primitive_attribute exMeshOwnerCtx 3 2 0 = 0
  ∧ mesh_get_primitive_indices exMeshOwnerCtx 3 2 = 0
  ∧ mesh_get_primitive_material exMeshOwnerCtx 3 2 = 0
  ∧ mesh_get_primitive_mode exMeshOwnerCtx 3 2 = 0
  ∧ mesh_set_primitive_material exMeshOwnerCtx 3 2 4 = (-1, exMeshOwnerCtx).
Proof.
  apply mesh_primitive_index_out_of_range.
  intros m Hm. vm_compute in Hm. injection Hm as <-. right. simpl. lia.
Defined.

(** X10. A successful mesh_set_primitive_material(mesh, index, material)
    returns 0, after which mesh_get_primitive_material(mesh, index) returns
    that material id while the primitive's mode, indices and primitive
    count of the mesh are what they were. *)
Theorem mesh_primitive_material_round_trip wasmCtx meshId index materialId p props :
  primitiveAt wasmCtx meshId index = Some (p, props) →
  is_Some (getScriptResource wasmCtx ResourceType.Material materialId) →
  let r := mesh_set_primitive_material wasmCtx meshId index materialId in
  r.1 = 0
  ∧ mesh_get_primitive_material r.2 meshId index = materialId
  ∧ mesh_get_primitive_mode r.2 meshId index = mode props
  ∧ mesh_get_primitive_indices r.2 meshId index
    = mesh_get_primitive_indices wasmCtx meshId index
  ∧ mesh_get_primitive_count r.2 meshId = mesh_get_primitive_count wasmCtx meshId.
Proof.
  intros Hp [mat Hmat] r. unfold r, mesh_set_primitive_material.
  rewrite Hp, Hmat. simpl.
  set (props' := mkPrimitiveProps (attributes props) (indices props)
                   (Some materialId) (mode props)).
  set (after := withResourceMap wasmCtx
                  (<[p := RMeshPrimitive props']> (resourceMap (resourceManager wasmCtx)))).
  pose proof Hp as Hp0.
  apply primitiveAt_Some in Hp as (m & Hm & Hpos & Hidx & Hget).
  assert (Hne : meshId ≠ p).
  { intros ->. apply getScriptMesh_Some in Hm as [_ Hm]. congruence. }
  assert (Hm' : getScriptMesh after meshId = Some m).
  { unfold getScriptMesh, after. by rewrite getScriptResource_update_other. }
  assert (Hp' : primitiveAt after meshId index = Some (p, props')).
  { apply primitiveAt_Some. exists m. split_and!; try done.
    unfold after. simpl. by rewrite lookup_insert_eq. }
  unfold mesh_get_primitive_material, mesh_get_primitive_mode,
    mesh_get_primitive_indices, mesh_get_primitive_count.
  rewrite Hp', Hp0, Hm', Hm. simpl. done.
Qed.

Lemma mesh_primitive_material_round_trip_witness :
  let r := mesh_set_primitive_material exMeshOwnerCtx 3 1 4 in
  r.1 = 0
  ∧ mesh_get_primitive_material r.2 3 1 = 4
  ∧ mesh_get_primitive_mode r.2 3 1 = 4
  ∧ mesh_get_primitive_indices r.2 3 1 = mesh_get_primitive_indices exMeshOwnerCtx 3 1
  ∧ mesh_get_primitive_count r.2 3 = mesh_get_primitive_count exMeshOwnerCtx 3.
Proof.
  refine (mesh_primitive_material_round_trip exMeshOwnerCtx 3 1 4 2
            (mkPrimitiveProps ∅ None None 4) _ _).
  - vm_compute. reflexivity.
  - vm_compute. eexists. reflexivity.
Defined.

(** ** UI canvas size *)

(** X11. After a successful ui_canvas_set_width(canvas, w) the width read
    back is w and the height is unchanged; after ui_canvas_set_height(canvas,
    h) the height read back is h and the width is unchanged. *)
Theorem ui_canvas_size_round_trip wasmCtx canvasId canvas w h :
  getScriptUICanvas wasmCtx canvasId = Some canvas →
  let rw := ui_canvas_set_width wasmCtx canvasId w in
  let rh := ui_canvas_set_height wasmCtx canvasId h in
  rw.1 = 0
  ∧ ui_canvas_get_width rw.2 canvasId = JsFloat32 w
  ∧ ui_canvas_get_height rw.2 canvasId = ui_canvas_get_height wasmCtx canvasId
  ∧ rh.1 = 0
  ∧ ui_canvas_get_height rh.2 canvasId = JsFloat32 h
  ∧ ui_canvas_get_width rh.2 canvasId = ui_canvas_get_width wasmCtx canvasId.
Proof.
  intros Hc rw rh. unfold rw, rh, ui_canvas_set_width, ui_canvas_set_height.
  rewrite Hc. simpl.
  pose proof Hc as Hc0. apply getScriptUICanvas_Some in Hc as [Hin Hget].
  assert (Hafter : ∀ c', getScriptUICanvas
            (withResourceMap wasmCtx
               (<[canvasId := RUICanvas c']> (resourceMap (resourceManager wasmCtx))))
            canvasId = Some c').
  { intros c'. apply getScriptUICanvas_Some. simpl. split; [done|].
    by rewrite lookup_insert_eq. }
  unfold ui_canvas_get_width, ui_canvas_get_height.
  rewrite !Hafter, Hc0. simpl. done.
Qed.

Lemma ui_canvas_size_round_trip_witness :
  let rw := ui_canvas_set_width exCanvasCtx 6 33 in
  let rh := ui_canvas_set_height exCanvasCtx 6 44 in
  rw.1 = 0
  ∧ ui_canvas_get_width rw.2 6 = JsFloat32 33
  ∧ ui_canvas_get_height rw.2 6 = ui_canvas_get_height exCanvasCtx 6
  ∧ rh.1 = 0
  ∧ ui_canvas_get_height rh.2 6 = JsFloat32 44
  ∧ ui_canvas_get_width rh.2 6 = ui_canvas_get_width exCanvasCtx 6.
Proof.
  exact (ui_canvas_size_round_trip exCanvasCtx 6 (mkUICanvas [0; 0] 10 20) 33 44
           eq_refl).
Defined.

(** ** World environment *)

(** X12. world_set_environment succeeds (returns 0) exactly when an
    environment exists and the scene passes the capability check; then
    world_get_environment returns that scene id. In every other case it
    returns -1 and the game state is unchanged. *)
Theorem world_environment_round_trip ctx wasmCtx sceneId :
  let r := world_set_environment ctx wasmCtx sceneId in
  (r.1 = 0 ↔ is_Some (environment ctx) ∧ is_Some (getScriptScene wasmCtx sceneId))
  ∧ (r.1 = 0 → world_get_environment r.2 = sceneId)
  ∧ (r.1 ≠ 0 → r.1 = -1 ∧ r.2 = ctx).
Proof.
  intros r. unfold r, world_set_environment, world_get_environment.
  destruct (environment ctx) as [e|];
    [destruct (getScriptScene wasmCtx sceneId) as [s|]|]; simpl.
  - split_and!; [split; eauto|done|done].
  - split_and!; [split; [done|intros [_ [? ?]]; done]|done|done].
  - split_and!; [split; [done|intros [[? ?] _]; done]|done|done].
Qed.

(** ** What the decoders accept *)

Lemma decoder_step {A} ok (m : Script A) wasmCtx o wasmCtx' :
  decoder ok m → m wasmCtx = (o, wasmCtx') →
  resourceManager wasmCtx' = resourceManager wasmCtx.
Proof. intros Hm H. destruct (Hm wasmCtx) as [Hrm _]. by rewrite H in Hrm. Qed.

Lemma decoder_no_return {A} (m : Script A) wasmCtx z wasmCtx' :
  decoder never m → m wasmCtx = (Return z, wasmCtx') → False.
Proof.
  intros Hm H. destruct (Hm wasmCtx) as [_ Hret]. rewrite H in Hret.
  exact (Hret z eq_refl).
Qed.

(** One step of a handler body that went on to the next statement: the
    step neither threw nor, being a plain read, returned. *)
Ltac script_step H :=
  rewrite bind_unfold in H;
  match type of H with
  | (let (_, _) := ?m ?c in _) = _ =>
      let E := fresh "E" in
      destruct (m c) as [[?|?|] ?] eqn:E;
      [ | first [ discriminate H
                | exfalso; eapply (decoder_no_return m c);
                  [solve [auto with decoders]|exact E] ]
        | discriminate H ]
  end;
  repeat match goal with
  | x : (_ * _)%type |- _ => destruct x
  end.

Ltac script_inv H := repeat script_step H.

Lemma resolve_owned expected id wasmCtx ref wasmCtx' :
  resolve expected id wasmCtx = (Continue ref, wasmCtx') →
  wasmCtx' = wasmCtx ∧ owned (resourceManager wasmCtx) expected ref.
Proof.
  unfold resolve. intros [= <- <-]. split; [done|].
  intros id'. destruct (getScriptResource wasmCtx expected id) as [r|] eqn:Hr;
    intros [= <-].
  apply getScriptResource_Some in Hr as (? & ? & ?). eauto.
Qed.

Lemma owned_None rm t : owned rm t None.
Proof. intros id [=]. Qed.

(** Turns the equation of every decoding step into the fact that the step
    kept the resource manager. *)
Ltac managers :=
  repeat match goal with
  | E : ?m ?c = (_, ?c') |- _ =>
      apply (decoder_step never) in E; [|solve [auto with decoders]]
  end.

(** X13. world_create_material cannot complete: whatever the constructor,
    the parameter block and the caller's resources are, the call ends in an
    exception that leaves the handler, and the resource manager is the one
    before the call, so no material is constructed. *)
Theorem world_create_material_never_constructs construct propsPtr wasmCtx :
  let r := world_create_material construct propsPtr wasmCtx in
  r.1 = Exception ∧ resourceManager r.2 = resourceManager wasmCtx.
Proof.
  intros r. unfold r, world_create_material, call. rewrite bind_unfold.
  destruct (readMaterialProps_throws propsPtr wasmCtx) as [Hthrow Hrm].
  destruct (readMaterialProps propsPtr wasmCtx) as [[props|z|] ctx1];
    simpl in *; try discriminate.
  split; [reflexivity|exact Hrm].
Qed.

(** A well-formed block that names the owned texture 4 as its base colour
    texture: the call throws after the first texture info (the cursor is at
    byte 40) and registers nothing. *)
Lemma world_create_material_textures_example :
  let r := world_create_material allocateResource 0 exTexturedMaterialCtx in
  r.1 = Exception
  ∧ cursor (cursorView r.2) = 40
  ∧ resourceManager r.2 = resourceManager exTexturedMaterialCtx.
Proof. vm_compute. repeat split. Qed.

(** ** Collider construction *)

(** X14. When create_collider returns a value, either it is the error value
    -1 and the resource manager is unchanged, or the call constructed
    exactly one collider, of a known collider type, whose mesh is absent or
    a Mesh in the caller's capability set. *)
Theorem create_collider_constructs_checked construct ColliderType
    colliderPropsPtr wasmCtx eid wasmCtx' :
  create_collider construct ColliderType colliderPropsPtr wasmCtx
    = (Value eid, wasmCtx') →
  let rm := resourceManager wasmCtx in
  (eid = -1 ∧ resourceManager wasmCtx' = rm)
  ∨ ∃ c, construct rm (RCollider c) = Some (eid, resourceManager wasmCtx')
         ∧ ColliderType (collider_type c) = true
         ∧ owned rm ResourceType.Mesh (collider_mesh c).
Proof.
  intros H rm. subst rm. unfold create_collider, call in H.
  match type of H with
  | (let (_, _) := ?x in _) = _ =>
      destruct x as [[a|z|] c1] eqn:Hbody; try discriminate
  end.
  injection H as -> ->.
  script_step Hbody. script_step Hbody.
  match type of Hbody with (if ?b then _ else _) _ = _ => destruct b eqn:Htype end.
  - right. do 5 script_step Hbody.
    rewrite bind_unfold in Hbody.
    match type of Hbody with
    | (let (_, _) := ?m ?c in _) = _ =>
        assert (Hmesh : ∃ mesh, m c = (Continue mesh, c)
                  ∧ owned (resourceManager c) ResourceType.Mesh mesh)
    end.
    { destruct (nonzero _).
      - eexists. split; [reflexivity|].
        eapply resolve_owned. reflexivity.
      - eexists. split; [reflexivity|apply owned_None]. }
    destruct Hmesh as (mesh & Hm & Hmesh). rewrite Hm in Hbody.
    rewrite bind_unfold in Hbody. unfold new in Hbody.
    unfold readFloat32Array, readFloat32 in *. managers.
    match type of Hbody with
    | context [construct ?r ?x] =>
        destruct (construct r x) as [[eid' rm']|] eqn:Hnew; [|discriminate];
        replace r with (resourceManager wasmCtx) in * by congruence
    end.
    injection Hbody as <- <-.
    eexists. split_and!; [exact Hnew|done|done].
  - left. injection Hbody as <- <-. managers. split; [done|congruence].
Qed.

(** The script that owns mesh 7 gets a collider that references it. *)
Lemma create_collider_constructs_checked_witness :
  let rm := resourceManager exColliderOwnerCtx in
  (8 = -1 ∧ resourceManager
              (create_collider allocateResource exColliderType 0 exColliderOwnerCtx).2 = rm)
  ∨ ∃ c, allocateResource rm (RCollider c)
         = Some (8, resourceManager
                      (create_collider allocateResource exColliderType 0
                         exColliderOwnerCtx).2)
         ∧ exColliderType (collider_type c) = true
         ∧ owned rm ResourceType.Mesh (collider_mesh c).
Proof.
  refine (create_collider_constructs_checked allocateResource exColliderType 0
            exColliderOwnerCtx 8 _ _).
  vm_compute. reflexivity.
Defined.

Lemma create_collider_owned_mesh_example :
  resourceMap (resourceManager
    (create_collider allocateResource exColliderType 0 exColliderOwnerCtx).2) !! 8
  = Some (RCollider (mkCollider 0 false [0; 0; 0] 0 0 (Some 7))).
Proof. vm_compute. reflexivity. Qed.

(** ** What the mesh parsing loop accepts *)

Lemma forLoop_invariant {T} rm (I : nat → T → Prop) (body : Z → T → Script T) n :
  (∀ k i acc c acc' c',
     resourceManager c = rm → I k acc → body i acc c = (Continue acc', c') →
     I (S k) acc' ∧ resourceManager c' = rm) →
  ∀ k i acc c acc' c',
    resourceManager c = rm → I k acc →
    forLoop n i body acc c = (Continue acc', c') →
    I (k + n)%nat acc' ∧ resourceManager c' = rm.
Proof.
  intros Hbody. induction n as [|n IH]; intros k i acc c acc' c' Hrm HI Hrun.
  - simpl in Hrun. injection Hrun as <- <-. by rewrite Nat.add_0_r.
  - simpl in Hrun. rewrite bind_unfold in Hrun.
    destruct (body i acc c) as [[acc1|z|] c1] eqn:Hstep; try discriminate.
    destruct (Hbody k i acc c acc1 c1 Hrm HI Hstep) as [HI1 Hrm1].
    replace (k + S n)%nat with (S k + n)%nat by lia.
    by apply (IH (S k) (i + 1) acc1 c1).
Qed.

Lemma readCheckedRef_owned expected wasmCtx ref wasmCtx' :
  readCheckedRef expected wasmCtx = (Continue ref, wasmCtx') →
  owned (resourceManager wasmCtx) expected ref
  ∧ resourceManager wasmCtx' = resourceManager wasmCtx.
Proof.
  unfold readCheckedRef. intros H. script_step H.
  apply (decoder_step never) in E as Hrm; [|apply decoder_readUint32].
  destruct (nonzero _).
  - script_step H. apply resolve_owned in E0 as [-> Ho].
    destruct a0 as [x|]; [|discriminate].
    injection H as <- <-. by rewrite <- Hrm.
  - injection H as <- <-. split; [apply owned_None|done].
Qed.

Lemma readAttribute_valid Attr attributesPtr attributeIndex attributes
    wasmCtx attributes' wasmCtx' :
  let ok (m : gmap Z Z) :=
    ∀ key a, m !! key = Some a →
      Attr key = true ∧ owned (resourceManager wasmCtx) ResourceType.Accessor (Some a) in
  ok attributes →
  readAttribute Attr attributesPtr attributeIndex attributes wasmCtx
    = (Continue attributes', wasmCtx') →
  ok attributes' ∧ resourceManager wasmCtx' = resourceManager wasmCtx.
Proof.
  intros ok Hok H. unfold readAttribute in H.
  script_step H. script_step H.
  destruct (Attr a0) eqn:Hkey; [|discriminate].
  script_step H. script_step H.
  apply resolve_owned in E2 as [-> Ho].
  destruct a2 as [acc|]; [|discriminate].
  injection H as <- <-. managers.
  assert (Hrm : resourceManager w1 = resourceManager wasmCtx) by congruence.
  split; [|done].
  intros key ref Hlook. destruct (decide (key = a0)) as [->|Hne].
  - rewrite lookup_insert_eq in Hlook. injection Hlook as <-.
    split; [done|]. by rewrite <- Hrm.
  - rewrite lookup_insert_ne in Hlook by done. by apply Hok.
Qed.

Lemma readPrimitive_valid Mode Attr primitivesPtr primitiveIndex primitiveProps
    wasmCtx primitiveProps' wasmCtx' :
  readPrimitive Mode Attr primitivesPtr primitiveIndex primitiveProps wasmCtx
    = (Continue primitiveProps', wasmCtx') →
  resourceManager wasmCtx' = resourceManager wasmCtx
  ∧ ∃ p, primitiveProps' = primitiveProps ++ [p]
         ∧ validPrimitive (resourceManager wasmCtx) Mode Attr p.
Proof.
  intros H. unfold readPrimitive in H.
  script_step H. script_step H. script_step H.
  rewrite bind_unfold in H.
  match type of H with
  | (let (_, _) := ?m ?c in _) = _ =>
      destruct (m c) as [[attrs|z|] c3] eqn:Hloop; try discriminate
  end.
  managers.
  assert (Hrm2 : resourceManager w1 = resourceManager wasmCtx) by congruence.
  apply (forLoop_invariant (resourceManager wasmCtx)
           (λ _ m, ∀ key a, m !! key = Some a →
              Attr key = true
              ∧ owned (resourceManager wasmCtx) ResourceType.Accessor (Some a))
           _ _) with (k := O) in Hloop as [Hattrs Hrm3]; [|clear|done|].
  2:{ intros k i acc c acc' c' Hc Hacc Hstep.
      apply readAttribute_valid in Hstep as [Hok' Hrm']; rewrite Hc in *; done. }
  2:{ intros key ref Hlook. by rewrite lookup_empty in Hlook. }
  rewrite bind_unfold in H.
  destruct (readCheckedRef ResourceType.Accessor c3) as [[ind|z|] c4] eqn:Hind;
    try discriminate.
  apply readCheckedRef_owned in Hind as [Hind Hrm4].
  rewrite bind_unfold in H.
  destruct (readCheckedRef ResourceType.Material c4) as [[mat|z|] c5] eqn:Hmat;
    try discriminate.
  apply readCheckedRef_owned in Hmat as [Hmat Hrm5].
  script_step H. managers.
  destruct (Mode _) eqn:Hmode; [|discriminate].
  injection H as <- <-.
  split; [congruence|].
  eexists. split; [reflexivity|].
  split_and!; simpl; [done| | |done].
  - by rewrite <- Hrm3.
  - replace (resourceManager wasmCtx) with (resourceManager c4) by congruence. done.
Qed.

(** X15. When the parsing loop of world_create_mesh accepts a block, it
    yields one props record per primitive, in order, and each record is
    valid for the caller: its mode and every attribute key are known
    enumeration values, and its indices accessor, its material and every
    attribute accessor are absent or resources of the right type in the
    caller's capability set. Parsing leaves the resource manager alone. *)
Theorem parsePrimitives_valid Mode Attr primitivesPtr primitivesCount
    wasmCtx props wasmCtx' :
  parsePrimitives Mode Attr primitivesPtr primitivesCount wasmCtx
    = (Continue props, wasmCtx') →
  length props = Z.to_nat primitivesCount
  ∧ Forall (validPrimitive (resourceManager wasmCtx) Mode Attr) props
  ∧ resourceManager wasmCtx' = resourceManager wasmCtx.
Proof.
  intros H. unfold parsePrimitives in H.
  apply (forLoop_invariant (resourceManager wasmCtx)
           (λ k ps, length ps = k
                    ∧ Forall (validPrimitive (resourceManager wasmCtx) Mode Attr) ps)
           _ _) with (k := O) in H as [[Hlen Hall] Hrm]; [done| |done|done].
  intros k i acc c acc' c' Hc [Hlen Hall] Hstep.
  apply readPrimitive_valid in Hstep as (Hrm & p & -> & Hp).
  rewrite Hc in *. split_and!; [|by apply Forall_app; auto|done].
  rewrite length_app. simpl. lia.
Qed.

Lemma parsePrimitives_valid_witness :
  ∃ p, (parsePrimitives exMeshPrimitiveMode exMeshPrimitiveAttributeIndex 24 1
          exAttributeMeshCtx).1 = Continue [p]
       ∧ validPrimitive (resourceManager exAttributeMeshCtx)
           exMeshPrimitiveMode exMeshPrimitiveAttributeIndex p.
Proof.
  destruct (parsePrimitives exMeshPrimitiveMode exMeshPrimitiveAttributeIndex 24 1
              exAttributeMeshCtx) as [out ctx'] eqn:Hrun.
  assert (Hout : out = Continue [mkPrimitiveProps {[0 := 5]} None (Some 6) 4]).
  { vm_compute in Hrun. by injection Hrun as <- _. }
  subst out.
  destruct (parsePrimitives_valid _ _ _ _ _ _ _ Hrun) as (_ & Hall & _).
  eexists. split; [reflexivity|].
  exact (Forall_inv Hall).
Defined.

(** ** A created mesh reports its primitives *)

Lemma allocateResource_registering : registering allocateResource.
Proof.
  intros rm r eid rm' [= <- <-]. simpl. split; [set_solver|].
  by rewrite lookup_insert_eq.
Qed.

Lemma allocateResource_total rm r : is_Some (allocateResource rm r).
Proof. unfold allocateResource. eauto. Qed.

Lemma createPrimitives_length construct :
  (∀ rm r, is_Some (construct rm r)) →
  ∀ props acc wasmCtx,
  ∃ prims wasmCtx',
    forEach props
      (λ p primitives, x ← new construct (RMeshPrimitive p); mret (primitives ++ [x]))
      acc wasmCtx = (Continue prims, wasmCtx')
    ∧ length prims = (length acc + length props)%nat.
Proof.
  intros Htotal. induction props as [|p props IH]; intros acc wasmCtx; simpl.
  - exists acc, wasmCtx. split; [done|lia].
  - rewrite !bind_unfold. unfold new at 1.
    destruct (Htotal (resourceManager wasmCtx) (RMeshPrimitive p)) as [[eid rm] ->].
    simpl.
    destruct (IH (acc ++ [eid]) (withManager wasmCtx rm)) as (prims & c' & -> & Hlen).
    exists prims, c'. split; [done|].
    rewrite Hlen, length_app. simpl. lia.
Qed.

(** X16. With constructors that do not throw and that register what they
    construct, a block whose header and primitives all decode makes
    world_create_mesh return the id of a mesh for which
    mesh_get_primitive_count answers the primitive count of the block. *)
Theorem world_create_mesh_primitive_count construct Mode Attr propsPtr wasmCtx
    primitivesPtr primitivesCount name ctx0 props ctx1 :
  registering construct →
  (∀ rm r, is_Some (construct rm r)) →
  readMeshHeader propsPtr wasmCtx
    = (Continue (primitivesPtr, primitivesCount, name), ctx0) →
  parsePrimitives Mode Attr primitivesPtr primitivesCount ctx0
    = (Continue props, ctx1) →
  ∃ meshId wasmCtx',
    world_create_mesh construct Mode Attr propsPtr wasmCtx = (Value meshId, wasmCtx')
    ∧ mesh_get_primitive_count wasmCtx' meshId = Z.of_nat (Z.to_nat primitivesCount).
Proof.
  intros Hreg Htotal Hheader Hparse.
  assert (Hlen : length props = Z.to_nat primitivesCount).
  { unfold parsePrimitives in Hparse.
    apply (forLoop_invariant (resourceManager ctx0)
             (λ k (ps : list MeshPrimitiveProps), length ps = k) _ _)
      with (k := O) in Hparse as [Hlen _]; [done| |done|done].
    intros k i acc c acc' c' Hc Hacc Hstep.
    apply readPrimitive_valid in Hstep as (Hrm & p & -> & _).
    split; [|congruence]. rewrite length_app. simpl. lia. }
  destruct (createPrimitives_length construct Htotal props [] ctx1)
    as (prims & c2 & Hcreate & Hprims).
  destruct (Htotal (resourceManager c2) (RMesh (mkMesh name prims)))
    as [[meshId rm] Hnew].
  exists meshId, (withManager c2 rm). split.
  - unfold world_create_mesh, call, tryCatch.
    rewrite bind_unfold, Hheader. simpl. rewrite bind_unfold, Hparse.
    rewrite bind_unfold. unfold createPrimitives. rewrite Hcreate.
    rewrite bind_unfold. unfold new. by rewrite Hnew.
  - apply Hreg in Hnew as [Hin Hget].
    unfold mesh_get_primitive_count.
    assert (getScriptMesh (withManager c2 rm) meshId = Some (mkMesh name prims)) as ->.
    { by apply getScriptMesh_Some. }
    simpl. rewrite Hprims. simpl. lia.
Qed.

Lemma world_create_mesh_primitive_count_witness :
  ∃ meshId wasmCtx',
    world_create_mesh allocateResource exMeshPrimitiveMode
      exMeshPrimitiveAttributeIndex 0 exMeshOkCtx = (Value meshId, wasmCtx')
    ∧ mesh_get_primitive_count wasmCtx' meshId = Z.of_nat (Z.to_nat 2).
Proof.
  refine (world_create_mesh_primitive_count allocateResource exMeshPrimitiveMode
            exMeshPrimitiveAttributeIndex 0 exMeshOkCtx 24 2 []
            (mkCtx (mkManager ∅ ∅ 1)
               (mkCursorView (buffer (cursorView exMeshOkCtx)) 24))
            [mkPrimitiveProps ∅ None None 4; mkPrimitiveProps ∅ None None 4]
            (mkCtx (mkManager ∅ ∅ 1)
               (mkCursorView (buffer (cursorView exMeshOkCtx)) 64))
            allocateResource_registering allocateResource_total _ _).
  - vm_compute. reflexivity.
  - vm_compute. reflexivity.
Defined.

(** ** A created canvas reports its size *)

(** X17. With a constructor that registers what it constructs:
    create_ui_canvas on a block whose four words can be read returns the id
    of a canvas whose width and height, read back through
    ui_canvas_get_width and ui_canvas_get_height, are the third and fourth
    word of the block. *)
Theorem create_ui_canvas_reports_size construct propsPtr wasmCtx s0 s1 w h eid rm :
  registering construct →
  let buf := buffer (cursorView wasmCtx) in
  getUint32 buf propsPtr = Some s0 →
  getUint32 buf (propsPtr + 4) = Some s1 →
  getUint32 buf (propsPtr + 8) = Some w →
  getUint32 buf (propsPtr + 12) = Some h →
  construct (resourceManager wasmCtx) (RUICanvas (mkUICanvas [s0; s1] w h))
    = Some (eid, rm) →
  let r := create_ui_canvas construct propsPtr wasmCtx in
  r.1 = Value eid
  ∧ ui_canvas_get_width r.2 eid = JsFloat32 w
  ∧ ui_canvas_get_height r.2 eid = JsFloat32 h.
Proof.
  intros Hreg buf H0 H1 H2 H3 Hnew r.
  replace (propsPtr + 8) with (propsPtr + 4 + 4) in H2 by lia.
  replace (propsPtr + 12) with (propsPtr + 4 + 4 + 4) in H3 by lia.
  assert (Hr : r = (Value eid,
                    mkCtx rm (mkCursorView buf (propsPtr + 4 + 4 + 4 + 4)))).
  { unfold r, create_ui_canvas, call, tryCatch.
    rewrite bind_unfold. simpl.
    unfold readFloat32Array, readFloat32. simpl.
    rewrite !bind_unfold. unfold readUint32 at 1. simpl. fold buf. rewrite H0. simpl.
    rewrite !bind_unfold. unfold readUint32 at 1. simpl. rewrite H1. simpl.
    rewrite !bind_unfold. unfold readUint32 at 1. simpl. rewrite H2. simpl.
    rewrite !bind_unfold. unfold readUint32 at 1. simpl. rewrite H3. simpl.
    rewrite !bind_unfold. unfold new. simpl. by rewrite Hnew. }
  rewrite Hr. simpl. apply Hreg in Hnew as [Hin Hget].
  unfold ui_canvas_get_width, ui_canvas_get_height.
  assert (getScriptUICanvas
            (mkCtx rm (mkCursorView buf (propsPtr + 4 + 4 + 4 + 4))) eid
          = Some (mkUICanvas [s0; s1] w h)) as ->.
  { by apply getScriptUICanvas_Some. }
  done.
Qed.

Lemma create_ui_canvas_reports_size_witness :
  let r := create_ui_canvas allocateResource 0 exCanvasPropsCtx in
  r.1 = Value 1
  ∧ ui_canvas_get_width r.2 1 = JsFloat32 3
  ∧ ui_canvas_get_height r.2 1 = JsFloat32 4.
Proof.
  refine (create_ui_canvas_reports_size allocateResource 0 exCanvasPropsCtx
            1 2 3 4 1 _ allocateResource_registering _ _ _ _ _).
  - vm_compute. reflexivity.
  - vm_compute. reflexivity.
  - vm_compute. reflexivity.
  - vm_compute. reflexivity.
  - reflexivity.
Defined.

(** ** Setters keep the access decisions *)

Lemma sameAccess_refl wasmCtx : sameAccess wasmCtx wasmCtx.
Proof. by split. Qed.

Lemma sameAccess_update wasmCtx key r r0 :
  resourceMap (resourceManager wasmCtx) !! key = Some r0 →
  resourceType r = resourceType r0 →
  sameAccess wasmCtx
    (withResourceMap wasmCtx (<[key := r]> (resourceMap (resourceManager wasmCtx)))).
Proof.
  intros Hget Hty. split; [done|]. intros id. simpl.
  destruct (decide (id = key)) as [->|Hne].
  - rewrite lookup_insert_eq, Hget. simpl. by rewrite Hty.
  - by rewrite lookup_insert_ne.
Qed.

Lemma sameAccess_getScriptResource wasmCtx wasmCtx' expected id :
  sameAccess wasmCtx wasmCtx' →
  is_Some (getScriptResource wasmCtx' expected id)
  ↔ is_Some (getScriptResource wasmCtx expected id).
Proof.
  intros [Hids Hty].
  assert (Hiff : ∀ c, is_Some (getScriptResource c expected id) ↔
            id ∈ resourceIds (resourceManager c)
            ∧ resourceType <$> resourceMap (resourceManager c) !! id = Some expected).
  { intros c. split.
    - intros [r Hr]. apply getScriptResource_Some in Hr as (Hin & Hget & Hrt).
      split; [done|]. rewrite Hget. simpl. by rewrite Hrt.
    - intros [Hin Hrt].
      destruct (resourceMap (resourceManager c) !! id) as [r|] eqn:Hget;
        simpl in Hrt; [|done].
      injection Hrt as Hrt. exists r. by apply getScriptResource_Some. }
  rewrite !Hiff, Hids, Hty. done.
Qed.

(** X18. The setters never change who may access what: after
    node_set_visible, material_set_base_color_texture,
    mesh_set_primitive_material, ui_canvas_set_width or
    ui_canvas_set_height - successful or not - the capability set is the
    same and every registry entry has the type it had, so the capability
    check accepts exactly the (type, id) pairs it accepted before. *)
Theorem setters_keep_access wasmCtx a b c :
  let after :=
    [ (node_set_visible wasmCtx a b).2;
      (material_set_base_color_texture wasmCtx a b).2;
      (mesh_set_primitive_material wasmCtx a b c).2;
      (ui_canvas_set_width wasmCtx a b).2;
      (ui_canvas_set_height wasmCtx a b).2 ] in
  Forall (λ wasmCtx',
            sameAccess wasmCtx wasmCtx'
            ∧ ∀ expected id,
                is_Some (getScriptResource wasmCtx' expected id)
                ↔ is_Some (getScriptResource wasmCtx expected id)) after.
Proof.
  intros after.
  assert (H1 : sameAccess wasmCtx (node_set_visible wasmCtx a b).2).
  { unfold node_set_visible.
    destruct (getScriptNode wasmCtx a) as [n|] eqn:Hn; [|apply sameAccess_refl].
    apply getScriptNode_Some in Hn as [_ Hn]. simpl.
    by eapply sameAccess_update. }
  assert (H2 : sameAccess wasmCtx (material_set_base_color_texture wasmCtx a b).2).
  { unfold material_set_base_color_texture.
    destruct (getScriptMaterial wasmCtx a) as [m|] eqn:Hm; [|apply sameAccess_refl].
    destruct (getScriptResource wasmCtx ResourceType.Texture b);
      [|apply sameAccess_refl].
    apply getScriptMaterial_Some in Hm as [_ Hm]. simpl.
    by eapply sameAccess_update. }
  assert (H3 : sameAccess wasmCtx (mesh_set_primitive_material wasmCtx a b c).2).
  { unfold mesh_set_primitive_material.
    destruct (primitiveAt wasmCtx a b) as [[p props]|] eqn:Hp;
      [|apply sameAccess_refl].
    destruct (getScriptResource wasmCtx ResourceType.Material c);
      [|apply sameAccess_refl].
    apply primitiveAt_Some in Hp as (m & _ & _ & _ & Hp). simpl.
    by eapply sameAccess_update. }
  assert (H4 : sameAccess wasmCtx (ui_canvas_set_width wasmCtx a b).2).
  { unfold ui_canvas_set_width.
    destruct (getScriptUICanvas wasmCtx a) as [cv|] eqn:Hc; [|apply sameAccess_refl].
    apply getScriptUICanvas_Some in Hc as [_ Hc]. simpl.
    by eapply sameAccess_update. }
  assert (H5 : sameAccess wasmCtx (ui_canvas_set_height wasmCtx a b).2).
  { unfold ui_canvas_set_height.
    destruct (getScriptUICanvas wasmCtx a) as [cv|] eqn:Hc; [|apply sameAccess_refl].
    apply getScriptUICanvas_Some in Hc as [_ Hc]. simpl.
    by eapply sameAccess_update. }
  assert (Hall : Forall (sameAccess wasmCtx) after).
  { unfold after.
    constructor; [exact H1|]. constructor; [exact H2|].
    constructor; [exact H3|]. constructor; [exact H4|].
    constructor; [exact H5|]. constructor. }
  eapply Forall_impl; [exact Hall|].
  intros wasmCtx' Hsame. split; [done|].
  intros expected id. by apply sameAccess_getScriptResource.
Qed.

(** ** A created light is usable by its creator *)

(** X19. create_light with a known light type, when the constructor
    registers the light under eid, returns eid, and the caller's capability
    check for (Light, eid) then yields a light of that type; the cursor view
    is not touched. *)
Theorem create_light_usable construct LightType type wasmCtx eid rm :
  registering construct →
  LightType type = true →
  construct (resourceManager wasmCtx) (RLight type) = Some (eid, rm) →
  let r := create_light construct LightType type wasmCtx in
  r.1 = Value eid
  ∧ getScriptResource r.2 ResourceType.Light eid = Some (RLight type)
  ∧ cursorView r.2 = cursorView wasmCtx.
Proof.
  intros Hreg Hty Hnew r. unfold r, create_light, call.
  rewrite Hty, bind_unfold. unfold new. rewrite Hnew. simpl.
  apply Hreg in Hnew as [Hin Hget].
  split_and!; [done| |done].
  by apply getScriptResource_Some.
Qed.

Lemma create_light_usable_witness :
  let r := create_light allocateResource exLightType 1 exMeshCtx in
  r.1 = Value 1
  ∧ getScriptResource r.2 ResourceType.Light 1 = Some (RLight 1)
  ∧ cursorView r.2 = cursorView exMeshCtx.
Proof.
  exact (create_light_usable allocateResource exLightType 1 exMeshCtx 1 _
           allocateResource_registering eq_refl eq_refl).
Defined.

(** ** Key repeat *)

Lemma onKeyDown_marks {RingBuffer} enqueueInputRingBuffer codeToKeyCode
    locked code (s : InputModule.State RingBuffer) :
  default false
    (InputModule.last
       (InputModule.onKeyDown enqueueInputRingBuffer codeToKeyCode locked code s)
     !! code) = true.
Proof.
  unfold InputModule.onKeyDown.
  destruct (default false (InputModule.last s !! code)) eqn:Hlast; [done|].
  simpl. by rewrite lookup_insert_eq.
Qed.

(** X20. While a key is held, only its first keydown counts: after one
    keydown of a code, any further keydowns of the same code (whatever the
    pointer-lock state) leave the handler state - the last map and the ring
    buffer - unchanged. In particular a key that went down while the
    pointer was not locked puts nothing into the ring buffer, however often
    it repeats afterwards. *)
Theorem onKeyDown_repeat_ignored {RingBuffer} enqueueInputRingBuffer codeToKeyCode
    locked code (s : InputModule.State RingBuffer) (locks : list bool) :
  let down l st := InputModule.onKeyDown enqueueInputRingBuffer codeToKeyCode l code st in
  foldl (λ st l, down l st) (down locked s) locks = down locked s
  ∧ InputModule.inputRingBuffer (foldl (λ st l, down l st) (down false s) locks)
    = InputModule.inputRingBuffer s.
Proof.
  intros down.
  assert (Hrep : ∀ l st, default false (InputModule.last st !! code) = true →
            down l st = st).
  { intros l st Hlast. unfold down, InputModule.onKeyDown. by rewrite Hlast. }
  assert (Hfold : ∀ st, default false (InputModule.last st !! code) = true →
            foldl (λ st l, down l st) st locks = st).
  { induction locks as [|l locks IH]; intros st Hlast; simpl; [done|].
    rewrite Hrep by done. by apply IH. }
  split.
  - apply Hfold, onKeyDown_marks.
  - rewrite Hfold by apply onKeyDown_marks.
    unfold down, InputModule.onKeyDown.
    by destruct (default false (InputModule.last s !! code)).
Qed.

(** After a keyup of a code the next keydown of that code is taken again:
    it is passed to the ring buffer (when the pointer is locked) with the
    key code of the code and the value 1. *)
Lemma onKeyDown_after_onKeyUp {RingBuffer} enqueueInputRingBuffer codeToKeyCode
    locked code (s : InputModule.State RingBuffer) :
  let up := InputModule.onKeyUp enqueueInputRingBuffer codeToKeyCode locked code s in
  InputModule.inputRingBuffer
    (InputModule.onKeyDown enqueueInputRingBuffer codeToKeyCode true code up)
  = (enqueueInputRingBuffer (InputModule.inputRingBuffer up) (codeToKeyCode code) [1]).2.
Proof.
  intros up. unfold InputModule.onKeyDown, up, InputModule.onKeyUp. simpl.
  by rewrite lookup_insert_eq.
Qed.

(** ** Member menu *)

(** X21. The member menu never offers a moderation action against a member
    whose power level is not below the viewer's: Kick, Unban and Disinvite
    appear only when the viewer may kick and has the higher power level, Ban
    only when the viewer may ban and has the higher power level; Invite
    appears only for members who left and only when the viewer may invite.
    The options menu is never shown on the viewer's own tile. *)
Theorem menuItems_authorized membership canInvite canKick canBan myPL userPL item userId :
  let items := MemberListDialog.menuItems membership canInvite canKick canBan myPL userPL in
  (item ∈ items →
     match item with
     | MemberListDialog.Kick => membership = "join" ∧ canKick = true ∧ userPL < myPL
     | MemberListDialog.Ban => membership = "join" ∧ canBan = true ∧ userPL < myPL
     | MemberListDialog.Unban => membership = "ban" ∧ canKick = true ∧ userPL < myPL
     | MemberListDialog.Disinvite =>
         membership = "invite" ∧ canKick = true ∧ userPL < myPL
     | MemberListDialog.Invite => membership = "leave" ∧ canInvite = true
     end)
  ∧ MemberListDialog.showsOptions items userId userId = false.
Proof.
  intros items. split.
  - unfold items, MemberListDialog.menuItems.
    repeat case_decide; subst;
      destruct canKick, canBan, canInvite, (Z.ltb_spec userPL myPL); simpl;
      intros Hin; repeat (apply elem_of_cons in Hin as [->|Hin]);
      try (by apply elem_of_nil in Hin); done.
  - unfold MemberListDialog.showsOptions.
    rewrite bool_decide_eq_true_2 by done. simpl. apply andb_false_r.
Qed.

(** ** Exceptions and the ABI boundary *)

(** X22. world_create_mesh never lets an exception out and never ends
    without a value: whatever the block, the enumerations and the
    constructor do, the call returns a number. When the very first read of
    the block is outside guest memory that number is 0 and the resource
    manager is unchanged. *)
Theorem world_create_mesh_always_returns construct Mode Attr propsPtr wasmCtx :
  let r := world_create_mesh construct Mode Attr propsPtr wasmCtx in
  (∃ z, r.1 = Value z)
  ∧ (getUint32 (buffer (cursorView wasmCtx)) propsPtr = None →
     r.1 = Value 0 ∧ resourceManager r.2 = resourceManager wasmCtx).
Proof.
  intros r. split.
  - unfold r, world_create_mesh, call, tryCatch.
    rewrite bind_unfold.
    destruct (readMeshHeader propsPtr wasmCtx) as [[[[pp pc] name]|z|] c0];
      simpl; eauto.
    rewrite bind_unfold.
    destruct (parsePrimitives Mode Attr pp pc c0) as [[props|z|] c1]; simpl; eauto.
    rewrite bind_unfold.
    destruct (createPrimitives construct props c1) as [[prims|z|] c2]; simpl; eauto.
    rewrite bind_unfold.
    destruct (new construct (RMesh (mkMesh name prims)) c2) as [[mesh|z|] c3];
      simpl; eauto.
  - intros Hoob. unfold r, world_create_mesh, call, tryCatch.
    rewrite bind_unfold. unfold readMeshHeader.
    rewrite bind_unfold. simpl. rewrite bind_unfold.
    unfold readUint32. simpl. rewrite Hoob. simpl. done.
Qed.

(** X23. create_collider, create_ui_canvas and world_create_material read
    their parameter block outside any try block: when the first word of the
    block is outside guest memory the exception leaves the handler, and no
    resource is constructed. *)
Theorem constructors_throw_on_unreadable_block construct ColliderType propsPtr wasmCtx :
  getUint32 (buffer (cursorView wasmCtx)) propsPtr = None →
  let outcomes :=
    [ create_collider construct ColliderType propsPtr wasmCtx;
      create_ui_canvas construct propsPtr wasmCtx;
      world_create_material construct propsPtr wasmCtx ] in
  Forall (λ r, r.1 = Exception ∧ resourceManager r.2 = resourceManager wasmCtx)
    outcomes.
Proof.
  intros Hoob outcomes. unfold outcomes.
  assert (Hread : readUint32
            (withCursorView wasmCtx (mkCursorView (buffer (cursorView wasmCtx)) propsPtr))
          = (Throw,
             withCursorView wasmCtx (mkCursorView (buffer (cursorView wasmCtx)) propsPtr))).
  { unfold readUint32. simpl. by rewrite Hoob. }
  constructor; [|constructor; [|constructor; [|constructor]]].
  - unfold create_collider, call. rewrite bind_unfold. simpl.
    rewrite bind_unfold, Hread. done.
  - unfold create_ui_canvas, call. rewrite bind_unfold. simpl.
    unfold readFloat32Array. simpl. rewrite !bind_unfold, Hread. done.
  - unfold world_create_material, call, readMaterialProps.
    rewrite !bind_unfold. simpl.
    unfold readFloat32Array. simpl. rewrite !bind_unfold, Hread. done.
Qed.

(** A block pointer past the end of the 64 bytes of guest memory. *)
Lemma constructors_throw_on_unreadable_block_witness :
  Forall (λ r, r.1 = Exception ∧ resourceManager r.2 = resourceManager exMeshCtx)
    [ create_collider allocateResource exColliderType 64 exMeshCtx;
      create_ui_canvas allocateResource 64 exMeshCtx;
      world_create_material allocateResource 64 exMeshCtx ].
Proof.
  apply (constructors_throw_on_unreadable_block allocateResource exColliderType
           64 exMeshCtx).
  vm_compute. reflexivity.
Defined.
